(** * typescript-plugin-stencil: the metadata extractor and what is built on it

    A shallow embedding of [src/ts-util/type.ts] and of the language-service
    plugin ([gatherDocumentMeta], [getCategory], [getSortText],
    [findReferences], [getCompletionEntryDetails]), with the properties of the
    specification stated over it.

    Conventions of the embedding.
    - JavaScript numbers that hold offsets, flags and indices are [Z].
    - JavaScript strings are [string], sequences of 8-bit character codes;
      comparison of strings is the lexicographic comparison of these codes.
    - A value that the code lets be a string, [false], [null] or [undefined]
      (the result of an [a && b && c] chain) is a [Value].
    - An expression that raises a [TypeError] (a property read on
      [undefined]) makes the whole call return [TypeError]; the variables of
      the closure keep the values they had before the call.
    - The declaration tree is the part of [ts.Node] the plugin reads. *)

From Stdlib Require Import ZArith String Ascii List Bool Lia.
From stdpp Require Import base gmap strings pretty.
Import ListNotations.

Local Open Scope string_scope.
Local Open Scope list_scope.
Local Open Scope Z_scope.

(** ** Completion of a call: a value, or a raised TypeError *)

Inductive result (A : Type) : Type :=
| Ok (a : A)
| TypeError.
Arguments Ok {A} a.
Arguments TypeError {A}.

#[global] Instance result_bind : MBind result := fun A B k r =>
  match r with
  | Ok a => k a
  | TypeError => TypeError
  end.

#[global] Instance result_ret : MRet result := fun A a => Ok a.

(** [xs.forEach(f)] over a state, stopping at the first raise. *)
Fixpoint forEach {A S : Type} (f : A -> S -> result S) (xs : list A) (s : S) : result S :=
  match xs with
  | [] => Ok s
  | x :: xs' => s' ← f x s; forEach f xs' s'
  end.

(** [xs.map(f)], stopping at the first raise. *)
Fixpoint mapM {A B : Type} (f : A -> result B) (xs : list A) : result (list B) :=
  match xs with
  | [] => Ok []
  | x :: xs' => y ← f x; ys ← mapM f xs'; Ok (y :: ys)
  end.

(** ** src/ts-util/type.ts *)

Module TypeUtil.

(** [ts.Type]: its [flags], and the [types] of a [ts.UnionType]. *)
#[warnings="-register-all"] Inductive tsType : Type :=
| MkType (flags : Z) (types : list tsType).

Definition flags (t : tsType) : Z := match t with MkType f _ => f end.
Definition types (t : tsType) : list tsType := match t with MkType _ ts => ts end.

Section CheckType.

(** [ts.TypeFlags.Union], a constant of the TypeScript library. *)
Variable Union : Z.







End CheckType.

End TypeUtil.

(** ** The plugin (the language-service decorator) *)

Module Plugin.

(** *** Values *)

(** What an [a && b && c.text] chain, a [let] without initializer or an array
    read can hold. *)
Inductive Value : Type :=
| VUndefined
| VNull
| VFalse
| VString (s : string).

(** Strict equality [a === b]. *)
Definition Value_eqb (a b : Value) : bool :=
  match a, b with
  | VUndefined, VUndefined => true
  | VNull, VNull => true
  | VFalse, VFalse => true
  | VString s, VString t => String.eqb s t
  | _, _ => false
  end.

(** Conversion to a string, as in a template literal or a [+=] on a string. *)
Definition toString (v : Value) : string :=
  match v with
  | VUndefined => "undefined"
  | VNull => "null"
  | VFalse => "false"
  | VString s => s
  end.

(** Truthiness. *)
Definition truthy (v : Value) : bool :=
  match v with
  | VString s => negb (String.eqb s "")
  | _ => false
  end.

(** [xs.includes(x)]. *)
Definition includes (xs : list Value) (x : Value) : bool :=
  existsb (fun y => Value_eqb y x) xs.

(** [xs.indexOf(x)] on an array of strings: the first index, or -1. *)
Fixpoint indexOfFrom (xs : list string) (x : string) (i : Z) : Z :=
  match xs with
  | [] => -1
  | y :: xs' => if String.eqb y x then i else indexOfFrom xs' x (i + 1)
  end.

Definition indexOf (xs : list string) (x : string) : Z := indexOfFrom xs x 0.

(** [xs[i]] on an array of strings. *)
Definition at_ (xs : list string) (i : Z) : Value :=
  if i <? 0 then VUndefined
  else match nth_error xs (Z.to_nat i) with
       | Some x => VString x
       | None => VUndefined
       end.

(** [text.indexOf(pattern)] on strings: the first offset, or -1. *)
Definition stringIndexOf (text pattern : string) : Z :=
  match String.index 0 pattern text with
  | Some i => Z.of_nat i
  | None => -1
  end.

(** The line-feed and the double-quote characters. *)
Definition nl : string := String "010"%char EmptyString.
Definition dquote : string := String "034"%char EmptyString.
Definition squote : string := "'".

(** *** The declaration tree *)

(** The nodes of [ts.Node] the plugin tells apart. A [decorators] array holds
    the [expression] of each decorator; [None] is an absent ([undefined])
    property. *)
#[warnings="-register-all"] Inductive Node : Type :=
| Identifier (text : string)
| StringLiteral (text : string)
| CallExpression (expression : Node) (arguments : list Node)
| ObjectLiteralExpression (properties : list Node)
| PropertyAssignment (name : Node) (initializer : Node)
| ClassDeclaration (decorators : option (list Node)) (name : option Node)
    (heritage : list Node) (members : list Node)
| PropertyDeclaration (decorators : option (list Node)) (name : Node) (rest : list Node)
| MethodDeclaration (decorators : option (list Node)) (name : Node) (rest : list Node)
| OtherNode (decorators : option (list Node)) (name : option Node) (children : list Node).

(** [ts.SourceFile]: its text and its top-level statements. *)
Record SourceFile : Type := {
  getText : string;
  statements : list Node
}.

(** [node.decorators]. *)
Definition decorators (node : Node) : option (list Node) :=
  match node with
  | ClassDeclaration d _ _ _ | PropertyDeclaration d _ _
  | MethodDeclaration d _ _ | OtherNode d _ _ => d
  | _ => None
  end.

(** [member.name]. *)
Definition nameOf (node : Node) : option Node :=
  match node with
  | ClassDeclaration _ n _ _ | OtherNode _ n _ => n
  | PropertyDeclaration _ n _ | MethodDeclaration _ n _ => Some n
  | PropertyAssignment n _ => Some n
  | _ => None
  end.

Definition arrayOrEmpty (d : option (list Node)) : list Node :=
  match d with Some l => l | None => [] end.

Definition nodeOrEmpty (n : option Node) : list Node :=
  match n with Some x => [x] | None => [] end.

(** The nodes [node.forEachChild] calls back on, in its order. *)
Definition forEachChild (node : Node) : list Node :=
  match node with
  | Identifier _ | StringLiteral _ => []
  | CallExpression e args => e :: args
  | ObjectLiteralExpression props => props
  | PropertyAssignment n i => [n; i]
  | ClassDeclaration d n h ms => arrayOrEmpty d ++ nodeOrEmpty n ++ h ++ ms
  | PropertyDeclaration d n r => arrayOrEmpty d ++ n :: r
  | MethodDeclaration d n r => arrayOrEmpty d ++ n :: r
  | OtherNode d n cs => arrayOrEmpty d ++ nodeOrEmpty n ++ cs
  end.

Definition isIdentifier (node : Node) : bool :=
  match node with Identifier _ => true | _ => false end.
Definition isStringLiteral (node : Node) : bool :=
  match node with StringLiteral _ => true | _ => false end.
Definition isCallExpression (node : Node) : bool :=
  match node with CallExpression _ _ => true | _ => false end.
Definition isClassDeclaration (node : Node) : bool :=
  match node with ClassDeclaration _ _ _ _ => true | _ => false end.
Definition isPropertyDeclaration (node : Node) : bool :=
  match node with PropertyDeclaration _ _ _ => true | _ => false end.
Definition isMethodDeclaration (node : Node) : bool :=
  match node with MethodDeclaration _ _ _ => true | _ => false end.

(** *** The model *)

Record WatchedEntry : Type := { prop : Value; handler : Value }.
Record ListenerEntry : Type := { events : list Value; l_handler : Value }.

Record DocumentMeta : Type := {
  className : Value;
  internalProperties : list Value;
  elements : list Value;
  states : list Value;
  propsConnect : list Value;
  propsContext : list Value;
  props : list Value;
  watched : list WatchedEntry;
  m_events : list Value;
  lifecycle : list Value;
  listeners : list ListenerEntry;
  methods : list Value;
  internalMethods : list Value
}.

(** *** StencilConstants *)

Definition ComponentBuiltinMethods : list string := ["render"; "hostData"].

Definition ComponentLifecycleMethods : list string :=
  ["componentWillLoad"; "componentDidLoad"; "componentWillUpdate";
   "componentDidUpdate"; "componentDidUnload"].

Definition ComponentLifecycleDocs (key : string) : Value :=
  if String.eqb key "componentWillLoad" then
    VString (nl +:+ nl +:+ "The component is about to load and it has not rendered yet."
      +:+ nl +:+ nl +:+ "This is the best place to make any data updates before the first render."
      +:+ nl +:+ nl +:+ "`componentWillLoad` will only be called once.")
  else if String.eqb key "componentDidLoad" then
    VString (nl +:+ nl +:+ "The component has loaded and has already rendered."
      +:+ nl +:+ nl +:+ "Updating data in this method will cause the component to re-render."
      +:+ nl +:+ nl +:+ "`componentDidLoad` will only be called once.")
  else if String.eqb key "componentWillUpdate" then
    VString (nl +:+ nl +:+ "The component is about to update and re-render."
      +:+ nl +:+ nl +:+ "Called multiple times throughout the life of the component as it updates."
      +:+ nl +:+ nl +:+ "`componentWillUpdate` is not called on the first render.")
  else if String.eqb key "componentDidUpdate" then
    VString (nl +:+ nl +:+ "The component has just re-rendered."
      +:+ nl +:+ nl +:+ "Called multiple times throughout the life of the component as it updates."
      +:+ nl +:+ nl +:+ "`componentDidUpdate` is not called on the first render.")
  else if String.eqb key "componentDidUnload" then
    VString (nl +:+ nl +:+ "The component did unload and the element will be destroyed.")
  else VUndefined.

(** [meta.className = v] and [meta.bucket.push(v)]. *)

Definition set_className (v : Value) (meta : DocumentMeta) : DocumentMeta :=
  {| className := v; internalProperties := internalProperties meta;
     elements := elements meta; states := states meta;
     propsConnect := propsConnect meta; propsContext := propsContext meta;
     props := props meta; watched := watched meta; m_events := m_events meta;
     lifecycle := lifecycle meta; listeners := listeners meta; methods := methods meta;
     internalMethods := internalMethods meta |}.

Definition push_internalProperties (v : Value) (meta : DocumentMeta) : DocumentMeta :=
  {| className := className meta; internalProperties := internalProperties meta ++ [v];
     elements := elements meta; states := states meta;
     propsConnect := propsConnect meta; propsContext := propsContext meta;
     props := props meta; watched := watched meta; m_events := m_events meta;
     lifecycle := lifecycle meta; listeners := listeners meta; methods := methods meta;
     internalMethods := internalMethods meta |}.

Definition push_elements (v : Value) (meta : DocumentMeta) : DocumentMeta :=
  {| className := className meta; internalProperties := internalProperties meta;
     elements := elements meta ++ [v]; states := states meta;
     propsConnect := propsConnect meta; propsContext := propsContext meta;
     props := props meta; watched := watched meta; m_events := m_events meta;
     lifecycle := lifecycle meta; listeners := listeners meta; methods := methods meta;
     internalMethods := internalMethods meta |}.

Definition push_states (v : Value) (meta : DocumentMeta) : DocumentMeta :=
  {| className := className meta; internalProperties := internalProperties meta;
     elements := elements meta; states := states meta ++ [v];
     propsConnect := propsConnect meta; propsContext := propsContext meta;
     props := props meta; watched := watched meta; m_events := m_events meta;
     lifecycle := lifecycle meta; listeners := listeners meta; methods := methods meta;
     internalMethods := internalMethods meta |}.

Definition push_props (v : Value) (meta : DocumentMeta) : DocumentMeta :=
  {| className := className meta; internalProperties := internalProperties meta;
     elements := elements meta; states := states meta;
     propsConnect := propsConnect meta; propsContext := propsContext meta;
     props := props meta ++ [v]; watched := watched meta; m_events := m_events meta;
     lifecycle := lifecycle meta; listeners := listeners meta; methods := methods meta;
     internalMethods := internalMethods meta |}.

Definition push_watched (v : WatchedEntry) (meta : DocumentMeta) : DocumentMeta :=
  {| className := className meta; internalProperties := internalProperties meta;
     elements := elements meta; states := states meta;
     propsConnect := propsConnect meta; propsContext := propsContext meta;
     props := props meta; watched := watched meta ++ [v]; m_events := m_events meta;
     lifecycle := lifecycle meta; listeners := listeners meta; methods := methods meta;
     internalMethods := internalMethods meta |}.

Definition push_events (v : Value) (meta : DocumentMeta) : DocumentMeta :=
  {| className := className meta; internalProperties := internalProperties meta;
     elements := elements meta; states := states meta;
     propsConnect := propsConnect meta; propsContext := propsContext meta;
     props := props meta; watched := watched meta; m_events := m_events meta ++ [v];
     lifecycle := lifecycle meta; listeners := listeners meta; methods := methods meta;
     internalMethods := internalMethods meta |}.

Definition push_lifecycle (v : Value) (meta : DocumentMeta) : DocumentMeta :=
  {| className := className meta; internalProperties := internalProperties meta;
     elements := elements meta; states := states meta;
     propsConnect := propsConnect meta; propsContext := propsContext meta;
     props := props meta; watched := watched meta; m_events := m_events meta;
     lifecycle := lifecycle meta ++ [v]; listeners := listeners meta;
     methods := methods meta; internalMethods := internalMethods meta |}.

Definition push_listeners (v : ListenerEntry) (meta : DocumentMeta) : DocumentMeta :=
  {| className := className meta; internalProperties := internalProperties meta;
     elements := elements meta; states := states meta;
     propsConnect := propsConnect meta; propsContext := propsContext meta;
     props := props meta; watched := watched meta; m_events := m_events meta;
     lifecycle := lifecycle meta; listeners := listeners meta ++ [v];
     methods := methods meta; internalMethods := internalMethods meta |}.

Definition push_methods (v : Value) (meta : DocumentMeta) : DocumentMeta :=
  {| className := className meta; internalProperties := internalProperties meta;
     elements := elements meta; states := states meta;
     propsConnect := propsConnect meta; propsContext := propsContext meta;
     props := props meta; watched := watched meta; m_events := m_events meta;
     lifecycle := lifecycle meta; listeners := listeners meta;
     methods := methods meta ++ [v]; internalMethods := internalMethods meta |}.

Definition push_internalMethods (v : Value) (meta : DocumentMeta) : DocumentMeta :=
  {| className := className meta; internalProperties := internalProperties meta;
     elements := elements meta; states := states meta;
     propsConnect := propsConnect meta; propsContext := propsContext meta;
     props := props meta; watched := watched meta; m_events := m_events meta;
     lifecycle := lifecycle meta; listeners := listeners meta; methods := methods meta;
     internalMethods := internalMethods meta ++ [v] |}.

(** *** Extraction *)

(** The test the code repeats on a decorator: its expression is a call whose
    callee is the identifier [name]. *)
Definition isDecoratorCall (name : string) (dec : Node) : bool :=
  match dec with
  | CallExpression (Identifier text) _ => String.eqb text name
  | _ => false
  end.

Definition hasDecoratorNamed (node : Node) (name : string) : bool :=
  match decorators node with
  | None => false
  | Some decs =>
      match find (isDecoratorCall name) decs with
      | Some _ => true
      | None => false
      end
  end.

Definition toName (member : Node) : Value :=
  match nameOf member with
  | None => VUndefined
  | Some (Identifier text) => VString text
  | Some _ => VFalse
  end.

Definition isComponentClass (node : Node) : bool :=
  match node with
  | ClassDeclaration (Some decs) _ _ _ => existsb (isDecoratorCall "Component") decs
  | _ => false
  end.

(** [ts.isCallExpression(d.expression) && ts.isStringLiteral(d.expression.arguments[0])
    && d.expression.arguments[0].text]. [ts.isStringLiteral] reads the [kind]
    of its argument, which raises on the [undefined] an empty argument list
    gives. *)
Definition literalArgument (decorator : Node) : result Value :=
  match decorator with
  | CallExpression _ args =>
      match args with
      | [] => TypeError
      | StringLiteral text :: _ => Ok (VString text)
      | _ :: _ => Ok VFalse
      end
  | _ => Ok VFalse
  end.

(** The callback of [undecorated.forEach]. *)
Definition undecoratedStep (member : Node) (meta : DocumentMeta) : result DocumentMeta :=
  if includes (map VString ComponentBuiltinMethods) (toName member) then Ok meta
  else if includes (map VString ComponentLifecycleMethods) (toName member) then
    Ok (push_lifecycle (toName member) meta)
  else if isPropertyDeclaration member then
    Ok (push_internalProperties (toName member) meta)
  else if isMethodDeclaration member then
    Ok (push_internalMethods (toName member) meta)
  else Ok meta.

(** The [Watch] and [Listen] blocks of the callback of [decorated.forEach]. *)
Definition watchStep (member : Node) (meta : DocumentMeta) : result DocumentMeta :=
  if hasDecoratorNamed member "Watch" then
    match find (isDecoratorCall "Watch") (arrayOrEmpty (decorators member)) with
    | Some decorator =>
        prop ← literalArgument decorator;
        Ok (push_watched {| prop := prop; handler := toName member |} meta)
    | None => TypeError
    end
  else Ok meta.

Definition listenStep (member : Node) (meta : DocumentMeta) : result DocumentMeta :=
  if hasDecoratorNamed member "Listen" then
    let decs := List.filter (isDecoratorCall "Listen") (arrayOrEmpty (decorators member)) in
    events ← mapM literalArgument decs;
    Ok (push_listeners {| events := events; l_handler := toName member |} meta)
  else Ok meta.

(** The callback of [decorated.forEach]. *)
Definition decoratedStep (member : Node) (meta : DocumentMeta) : result DocumentMeta :=
  let meta := if hasDecoratorNamed member "Element"
              then push_elements (toName member) meta else meta in
  let meta := if hasDecoratorNamed member "State"
              then push_states (toName member) meta else meta in
  meta ← watchStep member meta;
  meta ← listenStep member meta;
  let meta := if hasDecoratorNamed member "Event"
              then push_events (toName member) meta else meta in
  let meta := if hasDecoratorNamed member "Method"
              then push_methods (toName member) meta else meta in
  let meta := if hasDecoratorNamed member "Prop"
              then push_props (toName member) meta else meta in
  Ok meta.

(** [!member.decorators] and [Array.isArray(member.decorators)]. *)
Definition isUndecorated (member : Node) : bool :=
  match decorators member with None => true | Some _ => false end.
Definition isDecorated (member : Node) : bool :=
  match decorators member with None => false | Some _ => true end.

(** The body of the [if] of [visit], for a component class. [ts.isIdentifier]
    reads the [kind] of [node.name], which raises when the class has no
    name. *)
Definition componentBlock (node : Node) (meta : DocumentMeta) : result DocumentMeta :=
  match node with
  | ClassDeclaration _ nm _ members =>
      cn ← match nm with
           | None => TypeError
           | Some (Identifier text) => Ok (VString text)
           | Some _ => Ok VFalse
           end;
      let meta := set_className cn meta in
      let undecorated := List.filter isUndecorated members in
      let decorated := List.filter isDecorated members in
      meta ← forEach undecoratedStep undecorated meta;
      forEach decoratedStep decorated meta
  | _ => Ok meta
  end.

Definition classStep (node : Node) (meta : DocumentMeta) : result DocumentMeta :=
  if isClassDeclaration node && isComponentClass node
  then componentBlock node meta else Ok meta.

Fixpoint visit (node : Node) (meta : DocumentMeta) {struct node} : result DocumentMeta :=
  meta ← classStep node meta;
  match node with
  | Identifier _ | StringLiteral _ => Ok meta
  | CallExpression e args =>
      meta ← visit e meta; forEach visit args meta
  | ObjectLiteralExpression props => forEach visit props meta
  | PropertyAssignment n i =>
      meta ← visit n meta; visit i meta
  | ClassDeclaration d n h ms =>
      meta ← match d with Some l => forEach visit l meta | None => Ok meta end;
      meta ← match n with Some x => visit x meta | None => Ok meta end;
      meta ← forEach visit h meta;
      forEach visit ms meta
  | PropertyDeclaration d n r | MethodDeclaration d n r =>
      meta ← match d with Some l => forEach visit l meta | None => Ok meta end;
      meta ← visit n meta;
      forEach visit r meta
  | OtherNode d n cs =>
      meta ← match d with Some l => forEach visit l meta | None => Ok meta end;
      meta ← match n with Some x => visit x meta | None => Ok meta end;
      forEach visit cs meta
  end.

Definition emptyMeta : DocumentMeta :=
  {| className := VNull; internalProperties := []; elements := []; states := [];
     propsConnect := []; propsContext := []; props := []; watched := [];
     m_events := []; lifecycle := []; listeners := []; methods := [];
     internalMethods := [] |}.

(** [visit(sourceFile)]: a source file is no class declaration, and its
    children are its statements. *)
Definition gatherDocumentMeta (sourceFile : SourceFile) : result DocumentMeta :=
  forEach visit (statements sourceFile) emptyMeta.

(** *** Category ranking and lookup *)

Definition categories : list string :=
  ["own property"; "element"; "state"; "prop:connect"; "prop:context"; "prop";
   "watch"; "event"; "lifecycle"; "listen"; "method"; "local method"].

(** ['abcdefghijklmnopqrstuvwxyz'.split('')]. *)
Definition letters : list string :=
  ["a"; "b"; "c"; "d"; "e"; "f"; "g"; "h"; "i"; "j"; "k"; "l"; "m";
   "n"; "o"; "p"; "q"; "r"; "s"; "t"; "u"; "v"; "w"; "x"; "y"; "z"].

Definition lifecycles : list string :=
  ["componentWillLoad"; "componentDidLoad"; "componentWillUpdate";
   "componentDidUpdate"; "componentDidUnload"].

Definition getSortText (category name : string) : string :=
  let i := indexOf categories category in
  let prefix := if i >? -1 then at_ letters i else VString "z" in
  let prefix :=
    if String.eqb category "lifecycle"
    then VString (toString prefix +:+ toString (at_ letters (indexOf lifecycles name)))
    else prefix in
  toString prefix +:+ "-" +:+ name.

(** The [item] of a category lookup: a name, a watched entry or a listener
    entry. *)
Inductive Item : Type :=
| ItemName (name : string)
| ItemWatched (w : WatchedEntry)
| ItemListener (l : ListenerEntry).

Definition getCategory (meta : DocumentMeta) (name : string) : option (Item * string) :=
  let n := VString name in
  if includes (internalProperties meta) n then Some (ItemName name, "own property")
  else if includes (elements meta) n then Some (ItemName name, "element")
  else if includes (states meta) n then Some (ItemName name, "state")
  else if includes (propsConnect meta) n then Some (ItemName name, "prop:connect")
  else if includes (propsContext meta) n then Some (ItemName name, "prop:context")
  else if includes (props meta) n then Some (ItemName name, "prop")
  else match find (fun w => Value_eqb (handler w) n) (watched meta) with
  | Some w => Some (ItemWatched w, "watch")
  | None =>
  if includes (m_events meta) n then Some (ItemName name, "event")
  else if includes (lifecycle meta) n then Some (ItemName name, "lifecycle")
  else match find (fun l => Value_eqb (l_handler l) n) (listeners meta) with
  | Some l => Some (ItemListener l, "listen")
  | None =>
  if includes (methods meta) n then Some (ItemName name, "method")
  else if includes (internalMethods meta) n then Some (ItemName name, "local method")
  else None
  end end.

(** *** Results of the language service *)

Record SymbolDisplayPart : Type := { kind : string; text : Value }.

Record CompletionEntryDetails : Type := {
  d_name : string;
  d_kind : string;
  displayParts : list SymbolDisplayPart;
  documentation : option (list SymbolDisplayPart)
}.

Record TextSpan : Type := { ts_start : Z; ts_length : Z }.

Record ReferenceEntry : Type := {
  textSpan : TextSpan;
  fileName : string;
  isDefinition : bool;
  isWriteAccess : bool;
  isInString : bool
}.

Section LanguageService.

(** The definition record of a referenced symbol, and the format options,
    source and preferences of a detail request: the plugin hands them on
    unread. *)
Variables (DefinitionInfo Options : Type).

Record ReferencedSymbol : Type := {
  definition : DefinitionInfo;
  references : list ReferenceEntry
}.

(** The wrapped language service and the helpers over it: [None] is
    [undefined]. [getNode] is [Helper.getNode], that is [findNode] on the
    source file of the program. *)
Record Host : Type := {
  getSourceFile : string -> option SourceFile;
  getNode : string -> Z -> option Node;
  host_findReferences : string -> Z -> option (list ReferencedSymbol);
  host_getCompletionEntryDetails : string -> Z -> string -> Options -> option CompletionEntryDetails
}.

(** The calls a request makes on the wrapped language service. *)
Inductive HostCall : Type :=
| CallGetSourceFile (fileName : string)
| CallGetNode (fileName : string) (position : Z)
| CallFindReferences (fileName : string) (position : Z)
| CallGetCompletionEntryDetails (fileName : string) (position : Z) (name : string).

(** [gatherDocumentMeta] on what [getSourceFile] gave: [visit(undefined)]
    raises in [ts.isClassDeclaration]. *)
Definition gatherFrom (sourceFile : option SourceFile) : result DocumentMeta :=
  match sourceFile with
  | Some sf => gatherDocumentMeta sf
  | None => TypeError
  end.

(** *** findReferences *)

Definition findReferences (h : Host) (fileName : string) (position : Z)
  : result (option (list ReferencedSymbol)) :=
  let sourceFile := getSourceFile h fileName in
  meta ← gatherFrom sourceFile;
  node ← match getNode h fileName position with
         | Some node => Ok node
         | None => TypeError
         end;
  let text :=
    match node with
    | Identifier t => VString t
    | PropertyDeclaration _ (Identifier t) _ => VString t
    | _ => VUndefined
    end in
  let prior := host_findReferences h fileName position in
  if existsb (fun w => Value_eqb (prop w) text) (watched meta) then
    src ← match sourceFile with Some sf => Ok (getText sf) | None => TypeError end;
    let found := stringIndexOf src (dquote +:+ toString text +:+ dquote) in
    let found := if negb (found >? -1)
                 then stringIndexOf src (squote +:+ toString text +:+ squote)
                 else found in
    if found >? -1 then
      match prior, text with
      | Some (first :: others), VString t =>
          Ok (Some ((first :: others) ++
            [{| definition := definition first;
                references :=
                  [{| textSpan := {| ts_start := found + 1;
                                     ts_length := Z.of_nat (String.length t) |};
                      fileName := fileName;
                      isDefinition := false;
                      isWriteAccess := true;
                      isInString := true |}] |}]))
      | _, _ => TypeError
      end
    else Ok prior
  else Ok prior.

(** *** getCompletionEntryDetails *)

Definition part (k : string) (t : string) : SymbolDisplayPart :=
  {| kind := k; text := VString t |}.

Definition buildStencilDecoratorDisplayParts (k : string) (arg : Value)
  : list SymbolDisplayPart :=
  [part "punctuation" "@"; part "text" k; part "punctuation" "("]
  ++ (if truthy arg then [{| kind := "text"; text := arg |}] else [])
  ++ [part "punctuation" ")"].

Definition buildStencilDisplayParts (k : string) : list SymbolDisplayPart :=
  [part "text" k].

(** [xs.splice(start, deleteCount, ...items)] for [start, deleteCount >= 0]. *)
Definition splice {A : Type} (begin deleteCount : nat) (items xs : list A) : list A :=
  firstn begin xs ++ items ++ skipn (begin + deleteCount) xs.

Definition set_displayParts (dp : list SymbolDisplayPart) (d : CompletionEntryDetails)
  : CompletionEntryDetails :=
  {| d_name := d_name d; d_kind := d_kind d; displayParts := dp;
     documentation := documentation d |}.

Definition set_documentation (doc : list SymbolDisplayPart) (d : CompletionEntryDetails)
  : CompletionEntryDetails :=
  {| d_name := d_name d; d_kind := d_kind d; displayParts := displayParts d;
     documentation := Some doc |}.

(** The block guarded by [prior.kind === 'property' || prior.kind === 'method'].
    Destructuring the [undefined] that [getCategory] returns for an unmatched
    name raises. *)
Definition addStencilDisplayParts (meta : DocumentMeta) (name : string)
    (prior : CompletionEntryDetails) : result CompletionEntryDetails :=
  match getCategory meta name with
  | None => TypeError
  | Some (item, category) =>
      if String.eqb category "watch" then
        let dp := splice 1 1 (buildStencilDisplayParts "watch") (displayParts prior) in
        let watchedProp := match item with ItemWatched w => prop w | _ => VUndefined end in
        Ok (set_displayParts
              (dp ++ [part "punctuation" nl; part "punctuation" "(";
                      part "text" "watched"; part "punctuation" ")";
                      part "space" " "; {| kind := "keyword"; text := watchedProp |}])
              prior)
      else if String.eqb category "listen" then
        match item with
        | ItemListener l =>
            let eventDisplayParts :=
              flat_map (fun event => buildStencilDecoratorDisplayParts "Watch" event
                                     ++ [part "punctuation" nl]) (events l) in
            let dp := splice 0 4 [] (displayParts prior) in
            Ok (set_displayParts (splice 0 0 eventDisplayParts dp) prior)
        | _ => TypeError
        end
      else
        prior ←
          (if String.eqb category "lifecycle" then
             match documentation prior with
             | Some doc =>
                 Ok (set_documentation
                       (doc ++ [part "markdown"
                                  (nl +:+ nl +:+ "**Component Lifecycle Method**"
                                   +:+ toString (ComponentLifecycleDocs name))])
                       prior)
             | None => TypeError
             end
           else Ok prior);
        Ok (set_displayParts
              (splice 1 1 (buildStencilDisplayParts category) (displayParts prior)) prior)
  end.

(** The variables the closure keeps between detail requests. *)
Record DetailCache : Type := {
  cachedCompletionEntryDetailsFileName : option string;
  cachedCompletionEntryDetailsPosition : option Z;
  cachedCompletionEntryDetailsNames : option (list string);
  cachedCompletionEntryDetails : gmap string CompletionEntryDetails
}.

Definition initialCache : DetailCache :=
  {| cachedCompletionEntryDetailsFileName := None;
     cachedCompletionEntryDetailsPosition := None;
     cachedCompletionEntryDetailsNames := None;
     cachedCompletionEntryDetails := ∅ |}.

(** [cachedFileName === fileName && cachedPosition === position]. *)
Definition sameScope (c : DetailCache) (fileName : string) (position : Z) : bool :=
  match cachedCompletionEntryDetailsFileName c, cachedCompletionEntryDetailsPosition c with
  | Some f, Some p => String.eqb f fileName && (p =? position)
  | _, _ => false
  end.

(** The [if]/[else] that stores [prior] after a miss. *)
Definition store (c : DetailCache) (fileName : string) (position : Z) (name : string)
    (prior : CompletionEntryDetails) : result DetailCache :=
  if sameScope c fileName position then
    match cachedCompletionEntryDetailsNames c with
    | Some names =>
        Ok {| cachedCompletionEntryDetailsFileName := cachedCompletionEntryDetailsFileName c;
              cachedCompletionEntryDetailsPosition := cachedCompletionEntryDetailsPosition c;
              cachedCompletionEntryDetailsNames := Some (names ++ [name]);
              cachedCompletionEntryDetails := <[name := prior]> (cachedCompletionEntryDetails c) |}
    | None => TypeError
    end
  else
    Ok {| cachedCompletionEntryDetailsFileName := Some fileName;
          cachedCompletionEntryDetailsPosition := Some position;
          cachedCompletionEntryDetailsNames := Some [name];
          cachedCompletionEntryDetails := <[name := prior]> ∅ |}.

(** The [else] branch of the request: compute, decorate, store. The calls made
    on the wrapped service are returned with the outcome. *)
Definition computeDetails (h : Host) (c : DetailCache) (fileName : string) (position : Z)
    (name : string) (opts : Options)
  : result (CompletionEntryDetails * DetailCache) * list HostCall :=
  let sourceFile := getSourceFile h fileName in
  match gatherFrom sourceFile with
  | TypeError => (TypeError, [CallGetSourceFile fileName])
  | Ok meta =>
      let calls := [CallGetSourceFile fileName;
                    CallGetCompletionEntryDetails fileName position name] in
      match host_getCompletionEntryDetails h fileName position name opts with
      | None => (TypeError, calls)
      | Some prior =>
          (prior ← (if String.eqb (d_kind prior) "property" || String.eqb (d_kind prior) "method"
                    then addStencilDisplayParts meta name prior
                    else Ok prior);
           c' ← store c fileName position name prior;
           Ok (prior, c'),
           calls)
      end
  end.

(** One detail request: the outcome ([None] is [undefined]), the cache after
    it, and the calls made on the wrapped service. A raise leaves the cache as
    it was. *)
Definition getCompletionEntryDetails (h : Host) (c : DetailCache) (fileName : string)
    (position : Z) (name : string) (opts : Options)
  : result (option CompletionEntryDetails) * DetailCache * list HostCall :=
  if sameScope c fileName position then
    match cachedCompletionEntryDetailsNames c with
    | None => (TypeError, c, [])
    | Some names =>
        if existsb (String.eqb name) names
        then (Ok (cachedCompletionEntryDetails c !! name), c, [])
        else match computeDetails h c fileName position name opts with
             | (Ok (prior, c'), calls) => (Ok (Some prior), c', calls)
             | (TypeError, calls) => (TypeError, c, calls)
             end
    end
  else match computeDetails h c fileName position name opts with
       | (Ok (prior, c'), calls) => (Ok (Some prior), c', calls)
       | (TypeError, calls) => (TypeError, c, calls)
       end.

(** A run of detail requests, each with the service as it is at that time. *)
Record DetailRequest : Type := {
  r_host : Host;
  r_fileName : string;
  r_position : Z;
  r_name : string;
  r_opts : Options
}.

Fixpoint runDetails (c : DetailCache) (rs : list DetailRequest) : DetailCache :=
  match rs with
  | [] => c
  | r :: rs' =>
      runDetails
        (snd (fst (getCompletionEntryDetails (r_host r) c (r_fileName r) (r_position r)
                     (r_name r) (r_opts r))))
        rs'
  end.

End LanguageService.

Arguments Build_ReferencedSymbol {DefinitionInfo} definition references.
Arguments definition {DefinitionInfo} r.
Arguments references {DefinitionInfo} r.
Arguments Build_Host {DefinitionInfo Options}.
Arguments getSourceFile {DefinitionInfo Options} h fileName.
Arguments getNode {DefinitionInfo Options} h fileName position.
Arguments host_findReferences {DefinitionInfo Options} h fileName position.
Arguments host_getCompletionEntryDetails {DefinitionInfo Options} h fileName position name opts.
Arguments findReferences {DefinitionInfo Options} h fileName position.
Arguments computeDetails {DefinitionInfo Options} h c fileName position name opts.
Arguments getCompletionEntryDetails {DefinitionInfo Options} h c fileName position name opts.
Arguments Build_DetailRequest {DefinitionInfo Options}.
Arguments r_host {DefinitionInfo Options} d.
Arguments r_fileName {DefinitionInfo Options} d.
Arguments r_position {DefinitionInfo Options} d.
Arguments r_name {DefinitionInfo Options} d.
Arguments r_opts {DefinitionInfo Options} d.
Arguments runDetails {DefinitionInfo Options} c rs.

End Plugin.

(** ** The predicates of src/ts-util/type.ts *)

Module TypePredicates.

Import TypeUtil.

Section Flags.

(** The members of [ts.TypeFlags] the three predicates name, constants of the
    TypeScript library. *)
Variables (Boolean BooleanLike Number NumberLike NumberLiteral : Z).
Variables (String_ StringLike StringLiteral : Z).

(** [!!(t.flags & mask)] for a present [t]; [None] is an absent type. *)
Definition isBoolean (t : option tsType) : bool :=
  match t with
  | Some t => negb (Z.land (flags t) (Z.lor (Z.lor Boolean BooleanLike) BooleanLike) =? 0)
  | None => false
  end.

Definition isNumber (t : option tsType) : bool :=
  match t with
  | Some t => negb (Z.land (flags t) (Z.lor (Z.lor Number NumberLike) NumberLiteral) =? 0)
  | None => false
  end.

Definition isString (t : option tsType) : bool :=
  match t with
  | Some t => negb (Z.land (flags t) (Z.lor (Z.lor String_ StringLike) StringLiteral) =? 0)
  | None => false
  end.

End Flags.

End TypePredicates.

(** ** The rest of the plugin *)

Module PluginRest.

Import Plugin.

(** *** StencilConstants, continued *)

Definition ComponentBuiltinMethodDocs (key : string) : Value :=
  if String.eqb key "render" then
    VString (nl +:+ nl
      +:+ "Returns a tree of components that will be rendered to the DOM at runtime.")
  else if String.eqb key "hostData" then
    VString (nl +:+ nl +:+ "Dynamically sets attributes on the host element.")
  else VUndefined.

(** [Stencil.PropOptionsExpansion[key]]. A key outside the table reads
    [undefined], or a member inherited from [Object.prototype], which is
    neither of the strings ['string'] and ['boolean']; both are [VUndefined]
    here. *)
Definition PropOptionsExpansion (key : string) : Value :=
  if String.eqb key "attr" then VString "string"
  else if String.eqb key "context" then VString "string"
  else if String.eqb key "connect" then VString "string"
  else if String.eqb key "mutable" then VString "boolean"
  else if String.eqb key "reflectToAttr" then VString "boolean"
  else VUndefined.

Definition expandTo (name : string) (type : Value) : Value :=
  if Value_eqb type (VString "string") then VString (name +:+ ": ")
  else if Value_eqb type (VString "boolean") then VString (name +:+ ": true")
  else VUndefined.

(** *** Completion entries *)

(** [ts.CompletionEntry]: an absent [insertText] is [VUndefined], an absent
    [hasAction] is [false]. *)
Record CompletionEntry : Type := {
  e_name : string;
  e_kind : string;
  sortText : string;
  insertText : Value;
  hasAction : bool
}.

Definition set_sortText (v : string) (entry : CompletionEntry) : CompletionEntry :=
  {| e_name := e_name entry; e_kind := e_kind entry; sortText := v;
     insertText := insertText entry; hasAction := hasAction entry |}.

(** The entries of the [Prop] case of [getCompletionsAtPosition], inside the
    object literal that is the argument of the decorator. *)
Definition propOptionEntries (entries : list CompletionEntry) : list CompletionEntry :=
  map (fun entry =>
         {| e_name := e_name entry; e_kind := e_kind entry; sortText := sortText entry;
            insertText := expandTo (e_name entry) (PropOptionsExpansion (e_name entry));
            hasAction := true |})
      entries.

(** The entries of the member-completion branch of [getCompletionsAtPosition]:
    the [filter] that drops the builtin methods, then the [map] that sets the
    sort text of the entries [getCategory] finds. *)
Definition memberEntries (meta : DocumentMeta) (entries : list CompletionEntry)
  : list CompletionEntry :=
  map (fun entry =>
         match getCategory meta (e_name entry) with
         | Some (_, category) =>
             if truthy (VString category)
             then set_sortText (getSortText category (e_name entry)) entry
             else entry
         | None => entry
         end)
      (List.filter
         (fun entry =>
            if String.eqb (e_kind entry) "method"
            then negb (includes (map VString ComponentBuiltinMethods) (VString (e_name entry)))
            else true)
         entries).

(** *** findRenameLocations *)

Record RenameLocation : Type := {
  rl_fileName : string;
  rl_textSpan : TextSpan
}.

Section Rename.

Context {DefinitionInfo Options : Type}.

(** [rename] is [info.languageService.findRenameLocations]. *)
Definition findRenameLocations (h : Host DefinitionInfo Options)
    (rename : string -> Z -> bool -> bool -> option (list RenameLocation))
    (fileName : string) (position : Z) (findInStrings findInComments : bool)
  : result (option (list RenameLocation)) :=
  let sourceFile := getSourceFile h fileName in
  meta ← gatherFrom sourceFile;
  node ← match getNode h fileName position with
         | Some node => Ok node
         | None => TypeError
         end;
  let text :=
    match node with
    | Identifier t => VString t
    | PropertyDeclaration _ (Identifier t) _ => VString t
    | _ => VUndefined
    end in
  let isWatched :=
    truthy text && existsb (fun w => Value_eqb (prop w) text) (watched meta) in
  let findInStrings := if isWatched then true else findInStrings in
  let prior := rename fileName position findInStrings findInComments in
  if isWatched then
    match find (fun w => Value_eqb (prop w) text) (watched meta) with
    | Some watcher =>
        match handler watcher, text with
        | VString handlerName, VString t =>
            let propReferenceIndex := stringIndexOf handlerName t in
            if propReferenceIndex >? -1 then
              match prior, sourceFile with
              | Some locations, Some sf =>
                  Ok (Some (locations ++
                    [{| rl_fileName := fileName;
                        rl_textSpan :=
                          {| ts_start := stringIndexOf (getText sf) handlerName
                                         + propReferenceIndex;
                             ts_length := Z.of_nat (String.length t) |} |}]))
              | _, _ => TypeError
              end
            else Ok prior
        | _, _ => TypeError
        end
    | None => TypeError
    end
  else Ok prior.

End Rename.

(** *** getQuickInfoAtPosition *)

Record QuickInfo : Type := {
  q_kind : string;
  q_displayParts : list SymbolDisplayPart;
  q_documentation : option (list SymbolDisplayPart)
}.

(** [parts.some(x => x.text.indexOf(marker) > -1)]: reading [indexOf] of a
    text that is no string raises. *)
Fixpoint someMentions (marker : string) (parts : list SymbolDisplayPart) : result bool :=
  match parts with
  | [] => Ok false
  | x :: parts' =>
      match text x with
      | VString t =>
          if stringIndexOf t marker >? -1 then Ok true else someMentions marker parts'
      | _ => TypeError
      end
  end.

(** One of the two blocks that push a documentation part unless one that
    mentions the marker is there. *)
Definition pushDocumentation (marker : string) (docs : Value) (prior : QuickInfo)
  : result QuickInfo :=
  match q_documentation prior with
  | None => TypeError
  | Some documentation =>
      match someMentions marker documentation with
      | TypeError => TypeError
      | Ok true => Ok prior
      | Ok false =>
          Ok {| q_kind := q_kind prior;
                q_displayParts := q_displayParts prior;
                q_documentation :=
                  Some (documentation ++
                        [{| kind := "markdown";
                            text := VString (nl +:+ nl +:+ marker +:+ toString docs) |}]) |}
      end
  end.

(** The block [if (prior && prior.kind === 'method')]. When the display parts
    hold no [methodName] part, the [else if] reads [name.text] of
    [undefined]. *)
Definition addMethodDocumentation (prior : option QuickInfo) : result (option QuickInfo) :=
  match prior with
  | None => Ok None
  | Some q =>
      if String.eqb (q_kind q) "method" then
        match find (fun x => String.eqb (kind x) "methodName") (q_displayParts q) with
        | Some name =>
            if includes (map VString ComponentLifecycleMethods) (text name) then
              q' ← pushDocumentation "**Component Lifecycle Method**"
                     (ComponentLifecycleDocs (toString (text name))) q;
              Ok (Some q')
            else if includes (map VString ComponentBuiltinMethods) (text name) then
              q' ← pushDocumentation "**Component Method**"
                     (ComponentBuiltinMethodDocs (toString (text name))) q;
              Ok (Some q')
            else Ok (Some q)
        | None => TypeError
        end
      else Ok (Some q)
  end.

(** [`${fileName}@${node.pos}:${node.end}`], for offsets that print as
    integers. *)
Definition cacheId (fileName : string) (pos end_ : Z) : string :=
  fileName +:+ "@" +:+ pretty pos +:+ ":" +:+ pretty end_.

(** One quick-info request. [spanAt] gives [pos] and [end] of the node
    [Helper.getNode] finds ([None] when it finds none), [quickInfo] is
    [info.languageService.getQuickInfoAtPosition]; [cachedQuickInfo] maps a
    key to what was stored, [None] for a stored [undefined]. The outcome comes
    with the cache after the request and with whether the wrapped service was
    called. *)
Definition getQuickInfoAtPosition
    (spanAt : string -> Z -> option (Z * Z))
    (quickInfo : string -> Z -> option QuickInfo)
    (cachedQuickInfo : gmap string (option QuickInfo))
    (fileName : string) (position : Z)
  : result (option QuickInfo) * gmap string (option QuickInfo) * bool :=
  match spanAt fileName position with
  | None => (TypeError, cachedQuickInfo, false)
  | Some (pos, end_) =>
      match cachedQuickInfo !! cacheId fileName pos end_ with
      | Some stored => (Ok stored, cachedQuickInfo, false)
      | None =>
          match addMethodDocumentation (quickInfo fileName position) with
          | Ok prior =>
              (Ok prior, <[cacheId fileName pos end_ := prior]> cachedQuickInfo, true)
          | TypeError => (TypeError, cachedQuickInfo, true)
          end
      end
  end.

End PluginRest.

(** * Notions used to state the properties *)

Import TypeUtil Plugin.



(** The place of a category in the canonical order; an unrecognized category
    comes after all of them. *)
Definition categoryRank (category : string) : Z :=
  let i := indexOf categories category in
  if i >? -1 then i else Z.of_nat (List.length categories).

(** The nodes of a subtree in the order [visit] reaches them. *)
Fixpoint preorder (node : Node) : list Node :=
  node ::
  match node with
  | Identifier _ | StringLiteral _ => []
  | CallExpression e args => preorder e ++ flat_map preorder args
  | ObjectLiteralExpression ps => flat_map preorder ps
  | PropertyAssignment n i => preorder n ++ preorder i
  | ClassDeclaration d n h ms =>
      match d with Some l => flat_map preorder l | None => [] end
      ++ match n with Some x => preorder x | None => [] end
      ++ flat_map preorder h ++ flat_map preorder ms
  | PropertyDeclaration d n r | MethodDeclaration d n r =>
      match d with Some l => flat_map preorder l | None => [] end
      ++ preorder n ++ flat_map preorder r
  | OtherNode d n cs =>
      match d with Some l => flat_map preorder l | None => [] end
      ++ match n with Some x => preorder x | None => [] end
      ++ flat_map preorder cs
  end.

(** [node.members] of a class declaration. *)
Definition members (node : Node) : list Node :=
  match node with
  | ClassDeclaration _ _ _ ms => ms
  | _ => []
  end.

(** The classes of a file that carry the component annotation, and their
    members, in the order of the traversal. *)
Definition componentClasses (sf : SourceFile) : list Node :=
  List.filter isComponentClass (flat_map preorder (statements sf)).

Definition componentMembers (sf : SourceFile) : list Node :=
  flat_map members (componentClasses sf).

(** The buckets of the model that hold member names. *)
Inductive Bucket : Type :=
| InternalProperties | InternalMethods | Elements | States | Props
| PropsConnect | PropsContext | Methods | Lifecycle | Events
| Watched | Listeners.

Definition bucketNames (b : Bucket) (meta : DocumentMeta) : list Value :=
  match b with
  | InternalProperties => internalProperties meta
  | InternalMethods => internalMethods meta
  | Elements => elements meta
  | States => states meta
  | Props => props meta
  | PropsConnect => propsConnect meta
  | PropsContext => propsContext meta
  | Methods => methods meta
  | Lifecycle => lifecycle meta
  | Events => m_events meta
  | Watched => map handler (watched meta)
  | Listeners => map l_handler (listeners meta)
  end.

Definition isBuiltinName (member : Node) : bool :=
  includes (map VString ComponentBuiltinMethods) (toName member).
Definition isLifecycleName (member : Node) : bool :=
  includes (map VString ComponentLifecycleMethods) (toName member).

(** The members whose name the extraction appends to a bucket. *)
Definition placedIn (b : Bucket) (member : Node) : bool :=
  match b with
  | InternalProperties =>
      isUndecorated member && negb (isBuiltinName member)
      && negb (isLifecycleName member) && isPropertyDeclaration member
  | InternalMethods =>
      isUndecorated member && negb (isBuiltinName member)
      && negb (isLifecycleName member) && isMethodDeclaration member
  | Lifecycle =>
      isUndecorated member && negb (isBuiltinName member) && isLifecycleName member
  | Elements => hasDecoratorNamed member "Element"
  | States => hasDecoratorNamed member "State"
  | Props => hasDecoratorNamed member "Prop"
  | Methods => hasDecoratorNamed member "Method"
  | Events => hasDecoratorNamed member "Event"
  | Watched => hasDecoratorNamed member "Watch"
  | Listeners => hasDecoratorNamed member "Listen"
  | PropsConnect | PropsContext => false
  end.

(** The role annotations the extraction recognizes, and those a member
    carries. *)
Definition roleNames : list string :=
  ["Element"; "State"; "Watch"; "Listen"; "Event"; "Method"; "Prop"].

Definition rolesOf (member : Node) : list string :=
  List.filter (hasDecoratorNamed member) roleNames.

(** The name [visit] records for a component class. *)
Definition classNameOf (node : Node) : Value :=
  match node with
  | ClassDeclaration _ (Some (Identifier text)) _ _ => VString text
  | _ => VFalse
  end.

(** What the claim about only the first component class describes: the block
    of the first component class of the traversal, and no other. *)
Definition gatherFirstComponentOnly (sf : SourceFile) : result DocumentMeta :=
  match componentClasses sf with
  | [] => Ok emptyMeta
  | c :: _ => componentBlock c emptyMeta
  end.

(** A member declared with [@Prop({ option: ... })]: the form the connect and
    context props of a component take ([PropOptionsExpansion] lists both
    options). *)
Definition isOptionAssignment (option : string) (p : Node) : bool :=
  match p with
  | PropertyAssignment (Identifier k) _ => String.eqb k option
  | _ => false
  end.

Definition hasPropOption (option : string) (member : Node) : bool :=
  existsb (fun d =>
             match d with
             | CallExpression (Identifier callee) (ObjectLiteralExpression ps :: _) =>
                 String.eqb callee "Prop" && existsb (isOptionAssignment option) ps
             | _ => false
             end)
          (arrayOrEmpty (decorators member)).

(** The first argument of a decorator call, as the [Watch] and [Listen]
    blocks record it: its text when it is a string literal, [false]
    otherwise. *)
Definition hasFirstArgument (decorator : Node) : bool :=
  match decorator with
  | CallExpression _ [] => false
  | _ => true
  end.

Definition argumentText (decorator : Node) : Value :=
  match decorator with
  | CallExpression _ (StringLiteral text :: _) => VString text
  | _ => VFalse
  end.

Definition watchedEntryOf (member : Node) : WatchedEntry :=
  {| prop := match find (isDecoratorCall "Watch") (arrayOrEmpty (decorators member)) with
             | Some d => argumentText d
             | None => VFalse
             end;
     handler := toName member |}.

Definition listenerEntryOf (member : Node) : ListenerEntry :=
  {| events := map argumentText
                 (List.filter (isDecoratorCall "Listen") (arrayOrEmpty (decorators member)));
     l_handler := toName member |}.

(** A component class with a name, and a member whose [Watch] and [Listen]
    annotations all have a first argument. *)
Definition isNamedClass (node : Node) : bool :=
  match node with
  | ClassDeclaration _ (Some _) _ _ => true
  | _ => false
  end.

Definition argumentsPresent (member : Node) : bool :=
  forallb hasFirstArgument
    (List.filter (fun d => isDecoratorCall "Watch" d || isDecoratorCall "Listen" d)
       (arrayOrEmpty (decorators member))).

(** *** Sample declaration trees *)

Definition decorator (callee : string) (args : list Node) : Node :=
  CallExpression (Identifier callee) args.

Definition componentClass (name : string) (ms : list Node) : Node :=
  ClassDeclaration (Some [decorator "Component" []]) (Some (Identifier name)) [] ms.

Definition field (decs : option (list Node)) (name : string) : Node :=
  PropertyDeclaration decs (Identifier name) [].

Definition method (decs : option (list Node)) (name : string) : Node :=
  MethodDeclaration decs (Identifier name) [].

(** A state, a prop, the builtin [render], a lifecycle method, a member with a
    decorator that is no role annotation, and an unrelated statement. *)
Definition counterFile : SourceFile :=
  {| getText := "@Component() class Counter { @State() count; @Prop() label; "
                +:+ "render() {} componentDidLoad() {} @Memo() cached; }";
     statements :=
       [ OtherNode None None [Identifier "helper"];
         componentClass "Counter"
           [ field (Some [decorator "State" []]) "count";
             field (Some [decorator "Prop" []]) "label";
             method None "render";
             method None "componentDidLoad";
             field (Some [decorator "Memo" []]) "cached" ] ] |}.

(** Two component classes in one file. *)
Definition twoComponents : SourceFile :=
  {| getText := "@Component() class First { @State() a; } "
                +:+ "@Component() class Second { @State() b; }";
     statements :=
       [ componentClass "First" [field (Some [decorator "State" []]) "a"];
         componentClass "Second" [field (Some [decorator "State" []]) "b"] ] |}.

(** A connect prop and a context prop. *)
Definition menuCtrl : Node :=
  field (Some [decorator "Prop"
                 [ObjectLiteralExpression
                    [PropertyAssignment (Identifier "connect")
                       (StringLiteral "ion-menu-controller")]]]) "menuCtrl".

Definition isServer : Node :=
  field (Some [decorator "Prop"
                 [ObjectLiteralExpression
                    [PropertyAssignment (Identifier "context")
                       (StringLiteral "isServer")]]]) "isServer".

Definition connectFile : SourceFile :=
  {| getText := "@Component() class Menu { "
                +:+ "@Prop({ connect: 'ion-menu-controller' }) menuCtrl; "
                +:+ "@Prop({ context: 'isServer' }) isServer; }";
     statements := [componentClass "Menu" [menuCtrl; isServer]] |}.


(** [Watch] and [Listen] annotations whose argument is a constant, not a
    string literal. *)
Definition constantArgumentFile : SourceFile :=
  {| getText := "@Component() class Field { @Prop() value; "
                +:+ "@Watch(VALUE) onChange() {} @Listen(EVENT) onEvent() {} }";
     statements :=
       [ componentClass "Field"
           [ field (Some [decorator "Prop" []]) "value";
             method (Some [decorator "Watch" [Identifier "VALUE"]]) "onChange";
             method (Some [decorator "Listen" [Identifier "EVENT"]]) "onEvent" ] ] |}.

(** The model of [counterFile]. *)
Definition counterMeta : DocumentMeta :=
  {| className := VString "Counter"; internalProperties := []; elements := [];
     states := [VString "count"]; propsConnect := []; propsContext := [];
     props := [VString "label"]; watched := []; m_events := [];
     lifecycle := [VString "componentDidLoad"]; listeners := []; methods := [];
     internalMethods := [] |}.

(** A [Watch] annotation without argument. *)
Definition noArgumentFile : SourceFile :=
  {| getText := "@Component() class Field { @Watch() onChange() {} }";
     statements :=
       [ componentClass "Field" [method (Some [decorator "Watch" []]) "onChange"] ] |}.

(** The model of [constantArgumentFile]. *)
Definition constantArgumentMeta : DocumentMeta :=
  {| className := VString "Field"; internalProperties := []; elements := [];
     states := []; propsConnect := []; propsContext := [];
     props := [VString "value"];
     watched := [{| prop := VFalse; handler := VString "onChange" |}];
     m_events := []; lifecycle := [];
     listeners := [{| events := [VFalse]; l_handler := VString "onEvent" |}];
     methods := []; internalMethods := [] |}.

(** *** Notions for the requests *)

(** The name at the queried node: an identifier, or a property declaration
    named by one. *)
Definition nameAt (node : Node) : option string :=
  match node with
  | Identifier t => Some t
  | PropertyDeclaration _ (Identifier t) _ => Some t
  | _ => None
  end.

(** The offset [findReferences] looks for: the first occurrence of the name in
    double quotes when there is one, the first occurrence in single quotes
    otherwise. *)
Definition quotedOffset (src name : string) : option nat :=
  match String.index 0 (dquote +:+ name +:+ dquote) src with
  | Some i => Some i
  | None => String.index 0 (squote +:+ name +:+ squote) src
  end.


(** The reference record appended for a watched property. *)
Definition stringReference {D : Type} (def : D) (file : string) (found : nat) (name : string)
  : ReferencedSymbol D :=
  {| definition := def;
     references :=
       [{| textSpan := {| ts_start := Z.of_nat found + 1;
                          ts_length := Z.of_nat (String.length name) |};
           fileName := file;
           isDefinition := false;
           isWriteAccess := true;
           isInString := true |}] |}.

(** A component that watches [value], with the name in single quotes in the
    annotation and in double quotes further down. *)
Definition watchedFile : SourceFile :=
  {| getText := "@Component() class Field { @Prop() value; "
                +:+ "@Watch('value') onChange() {} label = "
                +:+ dquote +:+ "value" +:+ dquote +:+ "; }";
     statements :=
       [ componentClass "Field"
           [ field (Some [decorator "Prop" []]) "value";
             method (Some [decorator "Watch" [StringLiteral "value"]]) "onChange";
             PropertyDeclaration None (Identifier "label") [StringLiteral "value"] ] ] |}.

(** The symbol-based answer of the wrapped service for [value]. *)
Definition valueSymbol : ReferencedSymbol string :=
  {| definition := "Field.value";
     references :=
       [{| textSpan := {| ts_start := 35; ts_length := 5 |};
           fileName := "field.tsx";
           isDefinition := true;
           isWriteAccess := false;
           isInString := false |}] |}.

(** A wrapped service over one file: [node] is what [findNode] gives at every
    position, [detail] the raw detail of every name. *)
Definition serviceOver (sf : SourceFile) (node : option Node)
    (refs : option (list (ReferencedSymbol string)))
    (detail : string -> option CompletionEntryDetails) : Host string unit :=
  {| getSourceFile := fun _ => Some sf;
     getNode := fun _ _ => node;
     host_findReferences := fun _ _ => refs;
     host_getCompletionEntryDetails := fun _ _ name _ => detail name |}.

Definition watchedService : Host string unit :=
  serviceOver watchedFile (Some (Identifier "value")) (Some [valueSymbol]) (fun _ => None).


(** The name [n] is cached with [v] in the scope of [(file, position)]. *)
Definition cachedIn (c : DetailCache) (file : string) (position : Z) (n : string)
    (v : CompletionEntryDetails) : Prop :=
  sameScope c file position = true
  /\ exists names, cachedCompletionEntryDetailsNames c = Some names
                   /\ existsb (String.eqb n) names = true
                   /\ cachedCompletionEntryDetails c !! n = Some v.

(** The raw detail the wrapped service gives for a member of a class. *)
Definition rawDetail (kind name : string) : CompletionEntryDetails :=
  {| d_name := name;
     d_kind := kind;
     displayParts :=
       [part "punctuation" "("; part "text" kind; part "punctuation" ")";
        part "space" " "; part "className" "Counter"; part "punctuation" ".";
        part "propertyName" name];
     documentation := Some [] |}.

(** A wrapped service over [counterFile] that answers every detail request
    with the raw detail of a method, and one that answers with that of a
    property. *)
Definition methodService : Host string unit :=
  serviceOver counterFile None None (fun name => Some (rawDetail "method" name)).

Definition propertyService : Host string unit :=
  serviceOver counterFile None None (fun name => Some (rawDetail "property" name)).

(** The detail of [count] once decorated. *)
Definition countDetail : CompletionEntryDetails :=
  {| d_name := "count";
     d_kind := "property";
     displayParts :=
       [part "punctuation" "("; part "text" "state"; part "punctuation" ")";
        part "space" " "; part "className" "Counter"; part "punctuation" ".";
        part "propertyName" "count"];
     documentation := Some [] |}.

(** * Notions used to state the further properties *)

Import TypePredicates PluginRest.

(** A member whose step in [decorated.forEach] raises: its first [Watch]
    annotation, or one of its [Listen] annotations, has no argument. *)
Definition watchRaises (member : Node) : bool :=
  hasDecoratorNamed member "Watch"
  && negb match find (isDecoratorCall "Watch") (arrayOrEmpty (decorators member)) with
          | Some d => hasFirstArgument d
          | None => false
          end.

Definition listenRaises (member : Node) : bool :=
  hasDecoratorNamed member "Listen"
  && negb (forallb hasFirstArgument
             (List.filter (isDecoratorCall "Listen") (arrayOrEmpty (decorators member)))).

Definition stepRaises (member : Node) : bool :=
  watchRaises member || listenRaises member.

(** A source file with the given statements. *)
Definition fileOf (text : string) (nodes : list Node) : SourceFile :=
  {| getText := text; statements := nodes |}.

(** The category [getCategory] gives for a bucket. *)
Definition categoryOf (b : Bucket) : string :=
  match b with
  | InternalProperties => "own property"
  | Elements => "element"
  | States => "state"
  | PropsConnect => "prop:connect"
  | PropsContext => "prop:context"
  | Props => "prop"
  | Watched => "watch"
  | Events => "event"
  | Lifecycle => "lifecycle"
  | Listeners => "listen"
  | Methods => "method"
  | InternalMethods => "local method"
  end.

(** The prefixes of the sort keys of the names of a model. *)
Definition sortPrefixes : list string :=
  ["a"; "b"; "c"; "f"; "g"; "h"; "ia"; "ib"; "ic"; "id"; "ie"; "j"; "k"; "l"].

(** Every name the cache lists has a stored detail, once a scope is set. *)
Definition cacheConsistent (c : DetailCache) : Prop :=
  match cachedCompletionEntryDetailsFileName c, cachedCompletionEntryDetailsPosition c with
  | Some _, Some _ =>
      exists names, cachedCompletionEntryDetailsNames c = Some names
                    /\ forall n, existsb (String.eqb n) names = true ->
                                 is_Some (cachedCompletionEntryDetails c !! n)
  | _, _ => True
  end.

(** The name at the node is one [findRenameLocations] treats as watched: not
    empty, and the property observed by some watched entry. *)
Definition renameWatched (meta : DocumentMeta) (node : Node) : bool :=
  match nameAt node with
  | Some t =>
      negb (String.eqb t "")
      && existsb (fun w => Value_eqb (prop w) (VString t)) (watched meta)
  | None => false
  end.

(** The rename location appended for a watched property. *)
Definition handlerLocation (file : string) (begin : Z) (name : string) : RenameLocation :=
  {| rl_fileName := file;
     rl_textSpan := {| ts_start := begin; ts_length := Z.of_nat (String.length name) |} |}.



Definition watchedMeta : DocumentMeta :=
  {| className := VString "Field"; internalProperties := [VString "label"];
     elements := []; states := []; propsConnect := []; propsContext := [];
     props := [VString "value"];
     watched := [{| prop := VString "value"; handler := VString "onChange" |}];
     m_events := []; lifecycle := []; listeners := []; methods := [];
     internalMethods := [] |}.


(** A wrapped rename that answers with the declaration of [value], and with
    the string of the annotation as well when asked to search strings. *)
Definition renameOfValue (file : string) (position : Z) (findInStrings findInComments : bool)
  : option (list RenameLocation) :=
  Some (handlerLocation file 35 "value"
        :: (if findInStrings then [handlerLocation file 50 "value"] else [])).

(** A run of quick-info requests, each with the service as it is at that
    time. *)
Record QuickInfoRequest : Type := {
  qr_spanAt : string -> Z -> option (Z * Z);
  qr_quickInfo : string -> Z -> option QuickInfo;
  qr_fileName : string;
  qr_position : Z
}.

Fixpoint runQuickInfo (cache : gmap string (option QuickInfo)) (rs : list QuickInfoRequest)
  : gmap string (option QuickInfo) :=
  match rs with
  | [] => cache
  | r :: rs' =>
      runQuickInfo
        (snd (fst (getQuickInfoAtPosition (qr_spanAt r) (qr_quickInfo r) cache
                     (qr_fileName r) (qr_position r))))
        rs'
  end.

(** The quick info of a method, with the given documentation. *)
Definition methodInfo (name : string) (docs : list SymbolDisplayPart) : QuickInfo :=
  {| q_kind := "method";
     q_displayParts :=
       [part "punctuation" "("; part "text" "method"; part "punctuation" ")";
        part "space" " "; part "className" "Counter"; part "punctuation" ".";
        part "methodName" name];
     q_documentation := Some docs |}.

(** The quick info of [componentDidLoad] once documented. *)
Definition didLoadInfo : QuickInfo :=
  methodInfo "componentDidLoad"
    [part "markdown"
       (nl +:+ nl +:+ "**Component Lifecycle Method**"
        +:+ toString (ComponentLifecycleDocs "componentDidLoad"))].

(** A completion entry for a method named after a builtin. *)
Definition isBuiltinMethodEntry (entry : CompletionEntry) : bool :=
  String.eqb (e_kind entry) "method"
  && includes (map VString ComponentBuiltinMethods) (VString (e_name entry)).

(** The completion entries of [this.] in [counterFile], as the wrapped
    service orders them. *)
Definition thisEntries : list CompletionEntry :=
  map (fun nk => {| e_name := fst nk; e_kind := snd nk; sortText := "0";
                    insertText := VUndefined; hasAction := false |})
      [("cached", "property"); ("componentDidLoad", "method"); ("count", "property");
       ("label", "property"); ("render", "method")].

(** * Properties *)

(** ** The result monad and the array helpers *)

Lemma forEach_app {A S : Type} (f : A -> S -> result S) (xs ys : list A) (s : S) :
  forEach f (xs ++ ys) s = (s' ← forEach f xs s; forEach f ys s').
Proof.
  revert s. induction xs as [|x xs IH]; intros s; simpl; [reflexivity|].
  destruct (f x s) as [s'|]; simpl; [apply IH | reflexivity].
Qed.



(** ** checkType *)








(** ** getSortText *)

Lemma In_or_all_differ (xs : list string) (x : string) :
  In x xs \/ forallb (fun y => negb (String.eqb y x)) xs = true.
Proof.
  induction xs as [|y xs IH]; simpl; [right; reflexivity|].
  destruct (String.eqb_spec y x) as [->|_]; [left; left; reflexivity|].
  destruct IH as [IH|IH]; [left; right; exact IH | right; exact IH].
Qed.

Lemma indexOfFrom_all_differ (xs : list string) (x : string) (i : Z) :
  forallb (fun y => negb (String.eqb y x)) xs = true -> indexOfFrom xs x i = -1.
Proof.
  revert i. induction xs as [|y xs IH]; intros i H; simpl in *; [reflexivity|].
  apply andb_true_iff in H as [Hy Hxs].
  destruct (String.eqb y x); [discriminate | apply IH, Hxs].
Qed.

Lemma compare_refl (s : string) : String.compare s s = Eq.
Proof.
  induction s as [|a s IH]; simpl; [reflexivity|].
  unfold Ascii.compare. rewrite N.compare_refl. exact IH.
Qed.

Lemma compare_append_prefix (p s1 s2 : string) :
  String.compare (p +:+ s1) (p +:+ s2) = String.compare s1 s2.
Proof.
  induction p as [|a p IH]; simpl; [reflexivity|].
  unfold Ascii.compare. rewrite N.compare_refl. exact IH.
Qed.

(** The key of an unrecognized category. *)
Lemma getSortText_unrecognized (c n : string) :
  forallb (fun y => negb (String.eqb y c)) categories = true ->
  getSortText c n = "z-" +:+ n /\ categoryRank c = 12.
Proof.
  intros H. unfold getSortText, categoryRank, indexOf.
  rewrite (indexOfFrom_all_differ _ _ _ H).
  assert (E : String.eqb c "lifecycle" = false).
  { rewrite String.eqb_sym. apply negb_true_iff.
    apply (proj1 (forallb_forall _ _) H "lifecycle").
    unfold categories. simpl. tauto. }
  rewrite E. split; reflexivity.
Qed.

(** The keys of the twelve categories. *)
Lemma getSortText_recognized (n : string) :
  map (fun c => getSortText c n) categories =
  ["a-" +:+ n; "b-" +:+ n; "c-" +:+ n; "d-" +:+ n; "e-" +:+ n; "f-" +:+ n;
   "g-" +:+ n; "h-" +:+ n;
   "i" +:+ toString (at_ letters (indexOf lifecycles n)) +:+ "-" +:+ n;
   "j-" +:+ n; "k-" +:+ n; "l-" +:+ n].
Proof. reflexivity. Qed.

Lemma categoryRank_le (c : string) : categoryRank c <= 12.
Proof.
  destruct (In_or_all_differ categories c) as [H|H].
  - unfold categories in H. simpl in H.
    repeat match goal with
           | H : _ \/ _ |- _ => destruct H as [<-|H]
           | H : False |- _ => destruct H
           end; vm_compute; discriminate.
  - destruct (getSortText_unrecognized c "" H) as [_ ->]. lia.
Qed.

Lemma getSortText_by_category (c1 c2 n1 n2 : string) :
  categoryRank c1 < categoryRank c2 ->
  String.compare (getSortText c1 n1) (getSortText c2 n2) = Lt.
Proof.
  intros Hr.
  destruct (In_or_all_differ categories c1) as [H1|H1].
  - destruct (In_or_all_differ categories c2) as [H2|H2].
    + unfold categories in H1, H2. simpl in H1, H2.
      repeat match goal with
             | H : _ \/ _ |- _ => destruct H as [<-|H]
             | H : False |- _ => destruct H
             end;
        (vm_compute in Hr; try discriminate Hr); vm_compute; reflexivity.
    + destruct (getSortText_unrecognized c2 n2 H2) as [-> _].
      unfold categories in H1. simpl in H1.
      repeat match goal with
             | H : _ \/ _ |- _ => destruct H as [<-|H]
             | H : False |- _ => destruct H
             end; vm_compute; reflexivity.
  - destruct (getSortText_unrecognized c1 n1 H1) as [_ E].
    pose proof (categoryRank_le c2). lia.
Qed.

Lemma getSortText_by_name (c n1 n2 : string) :
  c <> "lifecycle" ->
  String.compare (getSortText c n1) (getSortText c n2) = String.compare n1 n2.
Proof.
  intros Hc. unfold getSortText.
  destruct (String.eqb_spec c "lifecycle") as [E|_]; [contradiction|].
  rewrite !compare_append_prefix. reflexivity.
Qed.

Lemma getSortText_by_phase (i j : nat) (n1 n2 : string) :
  nth_error lifecycles i = Some n1 -> nth_error lifecycles j = Some n2 ->
  (i < j)%nat ->
  String.compare (getSortText "lifecycle" n1) (getSortText "lifecycle" n2) = Lt.
Proof.
  intros H1 H2 Hij.
  assert (Hi : (i < 5)%nat) by (apply (proj1 (nth_error_Some lifecycles i)); congruence).
  assert (Hj : (j < 5)%nat) by (apply (proj1 (nth_error_Some lifecycles j)); congruence).
  destruct i as [|[|[|[|[|i]]]]]; try lia;
    destruct j as [|[|[|[|[|j]]]]]; try lia;
    simpl in H1, H2; injection H1 as <-; injection H2 as <-; vm_compute; reflexivity.
Qed.

(** C5. Lexicographic comparison of the keys of [getSortText] puts a member
    of an earlier category of the canonical order before a member of a later
    one, whatever the names (an unrecognized category after the twelve);
    within a category other than lifecycle it compares the member names; and
    the five lifecycle names come in the canonical phase order. *)
Theorem getSortText_order :
  (forall c1 c2 n1 n2 : string,
      categoryRank c1 < categoryRank c2 ->
      String.compare (getSortText c1 n1) (getSortText c2 n2) = Lt)
  /\ (forall c n1 n2 : string,
         c <> "lifecycle" ->
         String.compare (getSortText c n1) (getSortText c n2) = String.compare n1 n2)
  /\ (forall (i j : nat) (n1 n2 : string),
         nth_error lifecycles i = Some n1 -> nth_error lifecycles j = Some n2 ->
         (i < j)%nat ->
         String.compare (getSortText "lifecycle" n1) (getSortText "lifecycle" n2) = Lt)
  /\ map categoryRank categories = [0; 1; 2; 3; 4; 5; 6; 7; 8; 9; 10; 11]
  /\ lifecycles = ["componentWillLoad"; "componentDidLoad"; "componentWillUpdate";
                   "componentDidUpdate"; "componentDidUnload"].
Proof.
  split; [exact getSortText_by_category|].
  split; [exact getSortText_by_name|].
  split; [exact getSortText_by_phase|].
  split; reflexivity.
Qed.

Lemma getSortText_order_witness :
  String.compare (getSortText "state" "zeta") (getSortText "prop" "alpha") = Lt
  /\ String.compare (getSortText "method" "open") (getSortText "method" "close") = Gt
  /\ String.compare (getSortText "lifecycle" "componentWillLoad")
                    (getSortText "lifecycle" "componentDidLoad") = Lt
  /\ String.compare (getSortText "local method" "a") (getSortText "no such" "a") = Lt.
Proof.
  destruct getSortText_order as (Hc & Hn & Hp & _).
  split; [apply Hc; reflexivity|].
  split; [rewrite Hn; [reflexivity | discriminate]|].
  split; [apply (Hp 0%nat 1%nat); [reflexivity | reflexivity | lia]|].
  apply Hc; reflexivity.
Defined.

(** ** Traversal *)

(** Induction over a node and the nodes [forEachChild] gives. *)
Ltac forall_children IH :=
  repeat first
    [ assumption
    | match goal with
      | |- Forall _ [] => constructor
      | |- Forall _ (_ :: _) => constructor; [apply IH|]
      | |- Forall _ (_ ++ _) => apply Forall_app; split
      | |- Forall _ (arrayOrEmpty ?d) => destruct d; simpl
      | |- Forall _ (nodeOrEmpty ?n) => destruct n; simpl
      | |- Forall _ ?l => is_var l; induction l
      end ].

Lemma Node_nested_ind (P : Node -> Prop) :
  (forall node, Forall P (forEachChild node) -> P node) -> forall node, P node.
Proof.
  intros H. fix IH 1. intros node. apply H.
  destruct node; simpl; forall_children IH.
Qed.

Lemma forEach_ext_Forall {A S : Type} (f g : A -> S -> result S) (xs : list A) :
  Forall (fun x => forall s, f x s = g x s) xs -> forall s, forEach f xs s = forEach g xs s.
Proof.
  induction 1 as [|x xs Hx _ IH]; intros s; simpl; [reflexivity|].
  rewrite Hx. destruct (g x s); simpl; [apply IH | reflexivity].
Qed.

Lemma forEach_flat_map {A B S : Type} (f : B -> S -> result S) (g : A -> list B)
    (xs : list A) (s : S) :
  forEach (fun x => forEach f (g x)) xs s = forEach f (flat_map g xs) s.
Proof.
  revert s. induction xs as [|x xs IH]; intros s; simpl; [reflexivity|].
  rewrite forEach_app. destruct (forEach f (g x) s); simpl; [apply IH | reflexivity].
Qed.

Ltac run_visits :=
  repeat (repeat progress (rewrite ?forEach_app; unfold mbind, result_bind;
                           cbn -[classStep visit]);
          try reflexivity;
          match goal with
          | |- context [forEach visit ?l ?m] => is_var l; destruct (forEach visit l m)
          | |- context [visit ?n ?m] => is_var n; destruct (visit n m)
          end).

Lemma visit_unfold (node : Node) (meta : DocumentMeta) :
  visit node meta = (meta' ← classStep node meta; forEach visit (forEachChild node) meta').
Proof.
  destruct node as [| |e args|ps|n i|d n h ms|d n r|d n r|d n cs]; cbn -[classStep];
    destruct (classStep _ meta) as [m|]; cbn -[classStep]; try reflexivity;
    try destruct d as [l|]; try destruct n as [x|]; run_visits.
Qed.

Lemma preorder_unfold (node : Node) :
  preorder node = node :: flat_map preorder (forEachChild node).
Proof.
  destruct node as [| |e args|ps|n i|d n h ms|d n r|d n r|d n cs]; simpl;
    rewrite ?flat_map_app, ?app_nil_r; try reflexivity;
    destruct d as [l|]; try destruct n as [x|]; simpl;
    rewrite ?flat_map_app, ?app_nil_r; reflexivity.
Qed.

(** [visit] runs the class test and block on every node of the subtree, in
    pre-order. *)
Lemma visit_preorder (node : Node) :
  forall meta, visit node meta = forEach classStep (preorder node) meta.
Proof.
  induction node as [node IH] using Node_nested_ind. intros meta.
  rewrite visit_unfold, preorder_unfold. simpl.
  destruct (classStep node meta) as [m|]; simpl; [|reflexivity].
  rewrite (forEach_ext_Forall _ _ _ IH). apply forEach_flat_map.
Qed.

Lemma classStep_component (node : Node) (meta : DocumentMeta) :
  classStep node meta = if isComponentClass node then componentBlock node meta else Ok meta.
Proof. destruct node; reflexivity. Qed.

Lemma forEach_classStep_filter (nodes : list Node) (meta : DocumentMeta) :
  forEach classStep nodes meta
  = forEach componentBlock (List.filter isComponentClass nodes) meta.
Proof.
  revert meta. induction nodes as [|n nodes IH]; intros meta; [reflexivity|].
  cbn [forEach List.filter]. rewrite classStep_component.
  destruct (isComponentClass n).
  - cbn [forEach]. destruct (componentBlock n meta); [apply IH | reflexivity].
  - apply IH.
Qed.

Lemma gatherDocumentMeta_fold (sf : SourceFile) :
  gatherDocumentMeta sf = forEach componentBlock (componentClasses sf) emptyMeta.
Proof.
  unfold gatherDocumentMeta, componentClasses.
  rewrite <- forEach_classStep_filter, <- forEach_flat_map.
  apply forEach_ext_Forall. apply Forall_forall. intros n _ s. apply visit_preorder.
Qed.

(** ** What the member steps append *)

Lemma forEach_accumulate {A B : Type} (f : A -> DocumentMeta -> result DocumentMeta)
    (g : DocumentMeta -> list B) (c : A -> list B) (xs : list A) :
  (forall x s s', In x xs -> f x s = Ok s' -> g s' = g s ++ c x) ->
  forall s s', forEach f xs s = Ok s' -> g s' = g s ++ flat_map c xs.
Proof.
  induction xs as [|x xs IH]; intros Hf s s' H; simpl in *.
  - injection H as <-. rewrite app_nil_r. reflexivity.
  - destruct (f x s) as [s1|] eqn:E; simpl in H; [|discriminate].
    rewrite (IH (fun y t t' Hy => Hf y t t' (or_intror Hy)) _ _ H).
    rewrite (Hf x s s1 (or_introl eq_refl) E), app_assoc. reflexivity.
Qed.

Lemma forEach_preserve {A B : Type} (f : A -> DocumentMeta -> result DocumentMeta)
    (g : DocumentMeta -> B) (xs : list A) :
  (forall x s s', f x s = Ok s' -> g s' = g s) ->
  forall s s', forEach f xs s = Ok s' -> g s' = g s.
Proof.
  intros Hf. induction xs as [|x xs IH]; intros s s' H; simpl in *.
  - injection H as <-. reflexivity.
  - destruct (f x s) as [s1|] eqn:E; simpl in H; [|discriminate].
    rewrite (IH _ _ H). apply (Hf _ _ _ E).
Qed.

Lemma flat_map_if_singleton {A B : Type} (p : A -> bool) (f : A -> B) (xs : list A) :
  flat_map (fun x => if p x then [f x] else []) xs = map f (List.filter p xs).
Proof.
  induction xs as [|x xs IH]; simpl; [reflexivity|].
  destruct (p x); simpl; rewrite IH; reflexivity.
Qed.

Lemma undecorated_no_decorator (member : Node) (name : string) :
  isUndecorated member = true -> hasDecoratorNamed member name = false.
Proof.
  unfold isUndecorated, hasDecoratorNamed. destruct (decorators member); [discriminate | reflexivity].
Qed.

Lemma decorated_not_undecorated (member : Node) :
  isDecorated member = true -> isUndecorated member = false.
Proof. unfold isDecorated, isUndecorated. destruct (decorators member); [reflexivity | discriminate]. Qed.

Lemma undecoratedStep_appends (member : Node) (meta meta' : DocumentMeta) :
  undecoratedStep member meta = Ok meta' ->
  isUndecorated member = true ->
  className meta' = className meta
  /\ forall b, bucketNames b meta' =
               bucketNames b meta ++ (if placedIn b member then [toName member] else []).
Proof.
  intros H Hu. unfold undecoratedStep in H.
  assert (Hd : forall name, hasDecoratorNamed member name = false)
    by (intros; apply undecorated_no_decorator, Hu).
  unfold placedIn, isBuiltinName, isLifecycleName. rewrite Hu, !Hd.
  destruct (includes (map VString ComponentBuiltinMethods) (toName member));
    [|destruct (includes (map VString ComponentLifecycleMethods) (toName member));
      [|destruct member; simpl in H]];
    injection H as <-; (split; [reflexivity|]); intros b; destruct b; simpl;
    rewrite ?app_nil_r; reflexivity.
Qed.

Lemma decoratedStep_appends (member : Node) (meta meta' : DocumentMeta) :
  decoratedStep member meta = Ok meta' ->
  isDecorated member = true ->
  className meta' = className meta
  /\ forall b, bucketNames b meta' =
               bucketNames b meta ++ (if placedIn b member then [toName member] else []).
Proof.
  intros H Hd. unfold decoratedStep, watchStep, listenStep in H.
  unfold placedIn. rewrite (decorated_not_undecorated _ Hd).
  destruct (hasDecoratorNamed member "Element"), (hasDecoratorNamed member "State"),
    (hasDecoratorNamed member "Watch"), (hasDecoratorNamed member "Listen"),
    (hasDecoratorNamed member "Event"), (hasDecoratorNamed member "Method"),
    (hasDecoratorNamed member "Prop");
    repeat match type of H with
           | context [find ?p ?l] => destruct (find p l); simpl in H; [|discriminate H]
           | context [literalArgument ?d] => destruct (literalArgument d); simpl in H; [|discriminate H]
           | context [mapM ?f ?l] => destruct (mapM f l); simpl in H; [|discriminate H]
           end;
    simpl in H; injection H as <-; (split; [reflexivity|]); intros b; destruct b; simpl;
    rewrite ?map_app, ?app_nil_r; reflexivity.
Qed.

Lemma filter_filter_implied {A : Type} (p q : A -> bool) (xs : list A) :
  (forall x, p x = true -> q x = true) ->
  List.filter p (List.filter q xs) = List.filter p xs.
Proof.
  intros H. induction xs as [|x xs IH]; simpl; [reflexivity|].
  destruct (q x) eqn:Eq; simpl; [rewrite IH; reflexivity|].
  destruct (p x) eqn:Ep; [rewrite (H x Ep) in Eq; discriminate | exact IH].
Qed.

Lemma filter_filter_excluded {A : Type} (p q : A -> bool) (xs : list A) :
  (forall x, p x = true -> q x = false) ->
  List.filter p (List.filter q xs) = [].
Proof.
  intros H. induction xs as [|x xs IH]; simpl; [reflexivity|].
  destruct (q x) eqn:Eq; simpl; [|exact IH].
  destruct (p x) eqn:Ep; [rewrite (H x Ep) in Eq; discriminate | exact IH].
Qed.

Lemma hasDecoratorNamed_decorated (member : Node) (name : string) :
  hasDecoratorNamed member name = true -> isDecorated member = true.
Proof.
  unfold hasDecoratorNamed, isDecorated. destruct (decorators member); [reflexivity | discriminate].
Qed.

(** A bucket takes its names from undecorated members only, or from decorated
    members only. *)
Lemma placedIn_one_kind (b : Bucket) :
  (forall m, placedIn b m = true -> isUndecorated m = true /\ isDecorated m = false)
  \/ (forall m, placedIn b m = true -> isDecorated m = true /\ isUndecorated m = false).
Proof.
  assert (U : forall m, isUndecorated m = true -> isDecorated m = false).
  { intros m. unfold isUndecorated, isDecorated. destruct (decorators m); congruence. }
  destruct b; cbn [placedIn];
    first [ left; intros m H; repeat (apply andb_true_iff in H as [H ?]);
            split; [exact H | apply U, H]
          | right; intros m H; discriminate H
          | right; intros m H;
            pose proof (hasDecoratorNamed_decorated _ _ H) as D;
            split; [exact D | apply decorated_not_undecorated, D] ].
Qed.

Lemma bucketNames_set_className (b : Bucket) (v : Value) (meta : DocumentMeta) :
  bucketNames b (set_className v meta) = bucketNames b meta.
Proof. destruct b; reflexivity. Qed.

(** What the block of one component class appends. *)
Lemma componentBlock_appends (c : Node) (meta meta' : DocumentMeta) :
  componentBlock c meta = Ok meta' ->
  (isClassDeclaration c = true -> className meta' = classNameOf c)
  /\ forall b, bucketNames b meta' =
               bucketNames b meta ++ map toName (List.filter (placedIn b) (members c)).
Proof.
  intros H.
  destruct c as [| | | | |d nm h ms| | |];
    try (injection H as <-; split; [discriminate | intros b; simpl; rewrite app_nil_r; reflexivity]).
  unfold componentBlock in H.
  set (cn := classNameOf (ClassDeclaration d nm h ms)).
  assert (E : exists meta0,
             className meta0 = cn
             /\ (forall b, bucketNames b meta0 = bucketNames b meta)
             /\ (forEach undecoratedStep (List.filter isUndecorated ms) meta0
                 ≫= forEach decoratedStep (List.filter isDecorated ms)) = Ok meta').
  { destruct nm as [[t| | | | | | | |]|]; simpl in H; try discriminate H;
      eexists; (split; [|split; [|exact H]]);
      first [ reflexivity | intros b; apply bucketNames_set_className ]. }
  clear H. destruct E as (meta0 & Hcn & Hb0 & H).
  destruct (forEach undecoratedStep _ meta0) as [meta1|] eqn:E1; simpl in H; [|discriminate].
  assert (Su : forall x s s', In x (List.filter isUndecorated ms) -> undecoratedStep x s = Ok s' ->
               className s' = className s
               /\ forall b, bucketNames b s' =
                            bucketNames b s ++ (if placedIn b x then [toName x] else [])).
  { intros x s s' Hx Hs. apply filter_In in Hx as [_ Hx].
    apply (undecoratedStep_appends _ _ _ Hs Hx). }
  assert (Sd : forall x s s', In x (List.filter isDecorated ms) -> decoratedStep x s = Ok s' ->
               className s' = className s
               /\ forall b, bucketNames b s' =
                            bucketNames b s ++ (if placedIn b x then [toName x] else [])).
  { intros x s s' Hx Hs. apply filter_In in Hx as [_ Hx].
    apply (decoratedStep_appends _ _ _ Hs Hx). }
  split.
  - intros _.
    assert (P1 : className meta1 = className meta0).
    { revert E1 Su. generalize (List.filter isUndecorated ms) meta0.
      induction l as [|x l IH]; intros s E1 Su; simpl in E1; [congruence|].
      destruct (undecoratedStep x s) as [s1|] eqn:Ex; simpl in E1; [|discriminate].
      rewrite (IH _ E1 (fun y t t' Hy => Su y t t' (or_intror Hy))).
      apply (Su x s s1 (or_introl eq_refl) Ex). }
    assert (P2 : className meta' = className meta1).
    { revert H Sd. generalize (List.filter isDecorated ms) meta1.
      induction l as [|x l IH]; intros s E2 Sd; simpl in E2; [congruence|].
      destruct (decoratedStep x s) as [s1|] eqn:Ex; simpl in E2; [|discriminate].
      rewrite (IH _ E2 (fun y t t' Hy => Sd y t t' (or_intror Hy))).
      apply (Sd x s s1 (or_introl eq_refl) Ex). }
    congruence.
  - intros b. simpl members.
    rewrite (forEach_accumulate decoratedStep (bucketNames b)
               (fun x => if placedIn b x then [toName x] else []) _
               (fun x s s' Hx Hs => proj2 (Sd x s s' Hx Hs) b) _ _ H).
    rewrite (forEach_accumulate undecoratedStep (bucketNames b)
               (fun x => if placedIn b x then [toName x] else []) _
               (fun x s s' Hx Hs => proj2 (Su x s s' Hx Hs) b) _ _ E1).
    rewrite Hb0, !flat_map_if_singleton, <- app_assoc. f_equal.
    destruct (placedIn_one_kind b) as [K|K].
    + rewrite (filter_filter_implied _ _ ms (fun x Hx => proj1 (K x Hx))).
      rewrite (filter_filter_excluded _ _ ms (fun x Hx => proj2 (K x Hx))).
      apply app_nil_r.
    + rewrite (filter_filter_excluded _ _ ms (fun x Hx => proj2 (K x Hx))).
      rewrite (filter_filter_implied _ _ ms (fun x Hx => proj1 (K x Hx))).
      reflexivity.
Qed.

Lemma flat_map_map_filter {A B C : Type} (f : B -> C) (p : B -> bool) (g : A -> list B)
    (xs : list A) :
  flat_map (fun x => map f (List.filter p (g x))) xs = map f (List.filter p (flat_map g xs)).
Proof.
  induction xs as [|x xs IH]; simpl; [reflexivity|].
  rewrite IH, List.filter_app, map_app. reflexivity.
Qed.

(** Every bucket holds the names of the members placed in it, over all the
    component classes of the file, in the order of the traversal. *)
Lemma gatherDocumentMeta_buckets (sf : SourceFile) (meta : DocumentMeta) :
  gatherDocumentMeta sf = Ok meta ->
  forall b, bucketNames b meta = map toName (List.filter (placedIn b) (componentMembers sf)).
Proof.
  rewrite gatherDocumentMeta_fold. intros H b. unfold componentMembers.
  rewrite (forEach_accumulate componentBlock (bucketNames b)
             (fun c => map toName (List.filter (placedIn b) (members c))) _
             (fun x s s' _ Hs => proj2 (componentBlock_appends x s s' Hs) b) _ _ H).
  rewrite flat_map_map_filter. destruct b; reflexivity.
Qed.

Lemma last_cons_default {A : Type} (xs : list A) (a d : A) :
  List.last (a :: xs) d = List.last xs a.
Proof.
  revert a d. induction xs as [|x xs IH]; intros a d; [reflexivity|].
  change (List.last (a :: x :: xs) d) with (List.last (x :: xs) d).
  rewrite !IH. reflexivity.
Qed.

Lemma forEach_componentBlock_className (cs : list Node) (meta meta' : DocumentMeta) :
  Forall (fun c => isClassDeclaration c = true) cs ->
  forEach componentBlock cs meta = Ok meta' ->
  className meta' = List.last (map classNameOf cs) (className meta).
Proof.
  intros Hc. revert meta. induction Hc as [|c cs Hcls _ IH]; intros meta H; simpl in H.
  - injection H as <-. reflexivity.
  - destruct (componentBlock c meta) as [m1|] eqn:E; simpl in H; [|discriminate].
    rewrite (IH _ H). rewrite (proj1 (componentBlock_appends _ _ _ E) Hcls).
    cbn [map]. rewrite last_cons_default. reflexivity.
Qed.

(** ** The component classes of a file *)

(** C3, as stated, fails: with two component classes in a file the members of
    the second are processed as well, and the class name recorded is that of
    the second. *)
Lemma later_component_class_processed :
  List.length (componentClasses twoComponents) = 2%nat
  /\ gatherDocumentMeta twoComponents <> gatherFirstComponentOnly twoComponents
  /\ exists meta, gatherDocumentMeta twoComponents = Ok meta
                  /\ states meta = [VString "a"; VString "b"]
                  /\ className meta = VString "Second".
Proof.
  split; [reflexivity|]. split; [vm_compute; discriminate|].
  eexists. split; [vm_compute; reflexivity|]. split; reflexivity.
Qed.

(** C3 (amended). Extraction runs the member processing of every class that
    carries the component annotation, in the order the traversal reaches them,
    each on the model the previous ones left; the traversal reaches every node
    of the tree. The model produced holds, bucket by bucket, the names placed
    by all these classes, and the name of the last of them. *)
Theorem every_component_class_processed (sf : SourceFile) :
  gatherDocumentMeta sf = forEach componentBlock (componentClasses sf) emptyMeta
  /\ gatherDocumentMeta sf = forEach classStep (flat_map preorder (statements sf)) emptyMeta
  /\ forall meta, gatherDocumentMeta sf = Ok meta ->
       className meta = List.last (map classNameOf (componentClasses sf)) VNull
       /\ forall b, bucketNames b meta
                    = map toName (List.filter (placedIn b) (componentMembers sf)).
Proof.
  split; [apply gatherDocumentMeta_fold|]. split.
  - unfold gatherDocumentMeta. rewrite <- forEach_flat_map.
    apply forEach_ext_Forall, Forall_forall. intros n _ s. apply visit_preorder.
  - intros meta H. split; [|apply gatherDocumentMeta_buckets, H].
    rewrite gatherDocumentMeta_fold in H.
    apply (forEach_componentBlock_className _ emptyMeta); [|exact H].
    apply List.Forall_forall. intros c Hc. apply filter_In in Hc as [_ Hc].
    destruct c; try discriminate Hc. reflexivity.
Qed.

Lemma every_component_class_processed_witness :
  gatherDocumentMeta twoComponents
  = Ok {| className := VString "Second"; internalProperties := []; elements := [];
          states := [VString "a"; VString "b"]; propsConnect := []; propsContext := [];
          props := []; watched := []; m_events := []; lifecycle := []; listeners := [];
          methods := []; internalMethods := [] |}
  /\ bucketNames States
       {| className := VString "Second"; internalProperties := []; elements := [];
          states := [VString "a"; VString "b"]; propsConnect := []; propsContext := [];
          props := []; watched := []; m_events := []; lifecycle := []; listeners := [];
          methods := []; internalMethods := [] |}
     = map toName (List.filter (placedIn States) (componentMembers twoComponents)).
Proof.
  split; [vm_compute; reflexivity|].
  apply (proj2 (proj2 (every_component_class_processed twoComponents))).
  vm_compute. reflexivity.
Defined.

(** ** The role buckets *)

(** C2 fails on the code: a member declared as a connect prop, and one
    declared as a context prop, are appended to [props]; [propsConnect] and
    [propsContext], which [getCategory] consults and [getSortText] ranks, stay
    empty. *)
Lemma connect_prop_not_collected :
  In menuCtrl (componentMembers connectFile)
  /\ hasPropOption "connect" menuCtrl = true
  /\ In isServer (componentMembers connectFile)
  /\ hasPropOption "context" isServer = true
  /\ exists meta, gatherDocumentMeta connectFile = Ok meta
                  /\ ~ In (toName menuCtrl) (propsConnect meta)
                  /\ ~ In (toName isServer) (propsContext meta)
                  /\ props meta = [VString "menuCtrl"; VString "isServer"].
Proof.
  split; [left; reflexivity|]. split; [reflexivity|].
  split; [right; left; reflexivity|]. split; [reflexivity|].
  eexists. split; [vm_compute; reflexivity|]. simpl. tauto.
Qed.

(** What the extraction does with the role buckets: it leaves [propsConnect]
    and [propsContext] empty, and each of [elements], [states], [props],
    [events] and [methods] holds, in the order of the traversal, the names of
    the members of the component classes that carry the corresponding role
    annotation. *)
Theorem role_buckets_populated (sf : SourceFile) (meta : DocumentMeta) :
  gatherDocumentMeta sf = Ok meta ->
  propsConnect meta = [] /\ propsContext meta = []
  /\ elements meta
     = map toName (List.filter (fun m => hasDecoratorNamed m "Element") (componentMembers sf))
  /\ states meta
     = map toName (List.filter (fun m => hasDecoratorNamed m "State") (componentMembers sf))
  /\ props meta
     = map toName (List.filter (fun m => hasDecoratorNamed m "Prop") (componentMembers sf))
  /\ m_events meta
     = map toName (List.filter (fun m => hasDecoratorNamed m "Event") (componentMembers sf))
  /\ methods meta
     = map toName (List.filter (fun m => hasDecoratorNamed m "Method") (componentMembers sf)).
Proof.
  intros H. pose proof (gatherDocumentMeta_buckets sf meta H) as B.
  assert (N : forall l : list Node, List.filter (fun _ => false) l = [])
    by (induction l; [reflexivity | assumption]).
  split; [change (bucketNames PropsConnect meta = []); rewrite B; cbn [placedIn];
          rewrite N; reflexivity|].
  split; [change (bucketNames PropsContext meta = []); rewrite B; cbn [placedIn];
          rewrite N; reflexivity|].
  split; [apply (B Elements)|]. split; [apply (B States)|].
  split; [apply (B Props)|]. split; [apply (B Events) | apply (B Methods)].
Qed.

Example counterFile_role_buckets :
  gatherDocumentMeta counterFile = Ok counterMeta
  /\ states counterMeta = [VString "count"] /\ props counterMeta = [VString "label"]
  /\ propsConnect counterMeta = [].
Proof.
  assert (H : gatherDocumentMeta counterFile = Ok counterMeta) by (vm_compute; reflexivity).
  split; [exact H|].
  destruct (role_buckets_populated counterFile counterMeta H) as (Hc & _ & _ & Hs & Hp & _).
  split; [exact Hs|]. split; [exact Hp | exact Hc].
Qed.

(** ** One bucket per member name *)

Lemma NoDup_map_In_inj {A B : Type} (f : A -> B) (xs : list A) (x y : A) :
  List.NoDup (map f xs) -> In x xs -> In y xs -> f x = f y -> x = y.
Proof.
  induction xs as [|a xs IH]; intros Hnd Hx Hy E; [destruct Hx|].
  simpl in Hnd. apply List.NoDup_cons_iff in Hnd as [Ha Hnd].
  destruct Hx as [->|Hx], Hy as [->|Hy].
  - reflexivity.
  - exfalso. apply Ha. rewrite E. apply in_map, Hy.
  - exfalso. apply Ha. rewrite <- E. apply in_map, Hx.
  - apply IH; assumption.
Qed.

(** A member that carries at most one role annotation is placed in at most
    one bucket. *)
Lemma placedIn_unique (member : Node) (b1 b2 : Bucket) :
  (List.length (rolesOf member) <= 1)%nat ->
  placedIn b1 member = true -> placedIn b2 member = true -> b1 = b2.
Proof.
  intros Hr H1 H2.
  destruct b1, b2; try reflexivity; exfalso; cbn [placedIn] in H1, H2;
    try discriminate H1; try discriminate H2;
    repeat match goal with
           | H : _ && _ = true |- _ => apply andb_true_iff in H as [? ?]
           | H : negb _ = true |- _ => apply negb_true_iff in H
           end;
    first
      [ congruence
      | match goal with
        | U : isUndecorated member = true, D : hasDecoratorNamed member ?r = true |- _ =>
            rewrite (undecorated_no_decorator _ r U) in D; discriminate D
        end
      | match goal with
        | P : isPropertyDeclaration member = true, M : isMethodDeclaration member = true |- _ =>
            destruct member; cbn in P, M; congruence
        end
      | unfold rolesOf, roleNames in Hr; cbn [List.filter] in Hr; rewrite H1, H2 in Hr;
        repeat match type of Hr with
               | context [if ?c then _ else _] => destruct c
               end; simpl in Hr; lia ].
Qed.




(** ** Members with decorators that are no role annotation *)







(** ** Watch and Listen annotations *)

Lemma literalArgument_Ok (d : Node) (v : Value) :
  literalArgument d = Ok v -> v = argumentText d.
Proof.
  destruct d as [| |e [|a args]| | | | | |]; simpl; intros H; try congruence.
  destruct a; congruence.
Qed.

Lemma literalArgument_present (d : Node) :
  hasFirstArgument d = true -> literalArgument d = Ok (argumentText d).
Proof.
  destruct d as [| |e [|a args]| | | | | |]; simpl; intros H; try congruence.
  destruct a; reflexivity.
Qed.

Lemma mapM_literalArgument_Ok (ds : list Node) (vs : list Value) :
  mapM literalArgument ds = Ok vs -> vs = map argumentText ds.
Proof.
  revert vs. induction ds as [|d ds IH]; intros vs H; simpl in H;
    [injection H as <-; reflexivity|].
  destruct (literalArgument d) as [v|] eqn:E; simpl in H; [|discriminate].
  destruct (mapM literalArgument ds) as [vs'|]; simpl in H; [|discriminate].
  injection H as <-. rewrite (literalArgument_Ok _ _ E), (IH vs' eq_refl). reflexivity.
Qed.

Lemma mapM_literalArgument_present (ds : list Node) :
  forallb hasFirstArgument ds = true ->
  mapM literalArgument ds = Ok (map argumentText ds).
Proof.
  induction ds as [|d ds IH]; intros H; simpl in *; [reflexivity|].
  apply andb_true_iff in H as [Hd Hds].
  rewrite (literalArgument_present _ Hd), (IH Hds). reflexivity.
Qed.

Lemma watchStep_entry (member : Node) (meta meta' : DocumentMeta) :
  watchStep member meta = Ok meta' ->
  meta' = if hasDecoratorNamed member "Watch"
          then push_watched (watchedEntryOf member) meta else meta.
Proof.
  unfold watchStep, watchedEntryOf.
  destruct (hasDecoratorNamed member "Watch"); [|intros [= <-]; reflexivity].
  destruct (find _ _) as [d|]; [|discriminate].
  destruct (literalArgument d) as [v|] eqn:E; simpl; [|discriminate].
  rewrite (literalArgument_Ok _ _ E). intros [= <-]. reflexivity.
Qed.

Lemma listenStep_entry (member : Node) (meta meta' : DocumentMeta) :
  listenStep member meta = Ok meta' ->
  meta' = if hasDecoratorNamed member "Listen"
          then push_listeners (listenerEntryOf member) meta else meta.
Proof.
  unfold listenStep, listenerEntryOf.
  destruct (hasDecoratorNamed member "Listen"); [|intros [= <-]; reflexivity].
  destruct (mapM literalArgument _) as [vs|] eqn:E; simpl; [|discriminate].
  rewrite (mapM_literalArgument_Ok _ _ E). intros [= <-]. reflexivity.
Qed.

Lemma decoratedStep_entries (member : Node) (meta meta' : DocumentMeta) :
  decoratedStep member meta = Ok meta' ->
  watched meta' = watched meta
                  ++ (if hasDecoratorNamed member "Watch" then [watchedEntryOf member] else [])
  /\ listeners meta' = listeners meta
                       ++ (if hasDecoratorNamed member "Listen"
                           then [listenerEntryOf member] else []).
Proof.
  unfold decoratedStep. intros H.
  destruct (watchStep member _) as [m1|] eqn:W; simpl in H; [|discriminate].
  destruct (listenStep member m1) as [m2|] eqn:L; simpl in H; [|discriminate].
  apply watchStep_entry in W. apply listenStep_entry in L. injection H as <-. subst m2 m1.
  destruct (hasDecoratorNamed member "Element"), (hasDecoratorNamed member "State"),
    (hasDecoratorNamed member "Watch"), (hasDecoratorNamed member "Listen"),
    (hasDecoratorNamed member "Event"), (hasDecoratorNamed member "Method"),
    (hasDecoratorNamed member "Prop"); simpl; rewrite ?app_nil_r; split; reflexivity.
Qed.

Lemma undecoratedStep_entries (member : Node) (meta meta' : DocumentMeta) :
  undecoratedStep member meta = Ok meta' ->
  watched meta' = watched meta /\ listeners meta' = listeners meta.
Proof.
  unfold undecoratedStep. intros H.
  repeat match type of H with
         | context [if ?c then _ else _] => destruct c
         end; injection H as <-; split; reflexivity.
Qed.

Lemma componentBlock_entries (c : Node) (meta meta' : DocumentMeta) :
  componentBlock c meta = Ok meta' ->
  watched meta' = watched meta
                  ++ map watchedEntryOf
                       (List.filter (fun m => hasDecoratorNamed m "Watch") (members c))
  /\ listeners meta' = listeners meta
                       ++ map listenerEntryOf
                            (List.filter (fun m => hasDecoratorNamed m "Listen") (members c)).
Proof.
  intros H.
  destruct c as [| | | | |d nm h ms| | |];
    try (injection H as <-; simpl; rewrite !app_nil_r; split; reflexivity).
  unfold componentBlock in H.
  destruct (match nm with
            | Some (Identifier text) => Ok (VString text)
            | Some _ => Ok VFalse
            | None => TypeError
            end) as [cn|]; [|discriminate]. cbn [mbind result_bind] in H.
  destruct (forEach undecoratedStep _ (set_className cn meta)) as [m1|] eqn:E1;
    [|discriminate]. cbn [mbind result_bind] in H.
  pose proof (forEach_preserve undecoratedStep watched _
                (fun x s s' Hs => proj1 (undecoratedStep_entries x s s' Hs)) _ _ E1) as W1.
  pose proof (forEach_preserve undecoratedStep listeners _
                (fun x s s' Hs => proj2 (undecoratedStep_entries x s s' Hs)) _ _ E1) as L1.
  pose proof (forEach_accumulate decoratedStep watched
                (fun x => if hasDecoratorNamed x "Watch" then [watchedEntryOf x] else []) _
                (fun x s s' _ Hs => proj1 (decoratedStep_entries x s s' Hs)) _ _ H) as W2.
  pose proof (forEach_accumulate decoratedStep listeners
                (fun x => if hasDecoratorNamed x "Listen" then [listenerEntryOf x] else []) _
                (fun x s s' _ Hs => proj2 (decoratedStep_entries x s s' Hs)) _ _ H) as L2.
  rewrite flat_map_if_singleton in W2. rewrite flat_map_if_singleton in L2.
  rewrite filter_filter_implied in W2
    by (intros x Hx; apply (hasDecoratorNamed_decorated _ _ Hx)).
  rewrite filter_filter_implied in L2
    by (intros x Hx; apply (hasDecoratorNamed_decorated _ _ Hx)).
  simpl members. rewrite W2, L2, W1, L1. split; reflexivity.
Qed.

(** The watched and listener entries of the model. *)
Lemma gatherDocumentMeta_entries (sf : SourceFile) (meta : DocumentMeta) :
  gatherDocumentMeta sf = Ok meta ->
  watched meta = map watchedEntryOf
                   (List.filter (fun m => hasDecoratorNamed m "Watch") (componentMembers sf))
  /\ listeners meta = map listenerEntryOf
                        (List.filter (fun m => hasDecoratorNamed m "Listen")
                           (componentMembers sf)).
Proof.
  rewrite gatherDocumentMeta_fold. intros H. unfold componentMembers.
  rewrite <- !flat_map_map_filter. split.
  - apply (forEach_accumulate componentBlock watched
             (fun c => map watchedEntryOf
                         (List.filter (fun m => hasDecoratorNamed m "Watch") (members c))) _
             (fun x s s' _ Hs => proj1 (componentBlock_entries x s s' Hs)) _ _ H).
  - apply (forEach_accumulate componentBlock listeners
             (fun c => map listenerEntryOf
                         (List.filter (fun m => hasDecoratorNamed m "Listen") (members c))) _
             (fun x s s' _ Hs => proj2 (componentBlock_entries x s s' Hs)) _ _ H).
Qed.

Lemma forEach_total {A S : Type} (f : A -> S -> result S) (xs : list A) :
  (forall x, In x xs -> forall s, exists s', f x s = Ok s') ->
  forall s, exists s', forEach f xs s = Ok s'.
Proof.
  induction xs as [|x xs IH]; intros Hf s; simpl; [eauto|].
  destruct (Hf x (or_introl eq_refl) s) as [s1 ->]. simpl.
  apply IH. intros y Hy. apply Hf. right. exact Hy.
Qed.

Lemma undecoratedStep_total (member : Node) (meta : DocumentMeta) :
  exists meta', undecoratedStep member meta = Ok meta'.
Proof.
  unfold undecoratedStep.
  repeat match goal with
         | |- context [if ?c then _ else _] => destruct c
         end; eauto.
Qed.

Lemma decoratedStep_total (member : Node) (meta : DocumentMeta) :
  argumentsPresent member = true -> exists meta', decoratedStep member meta = Ok meta'.
Proof.
  unfold argumentsPresent. intros Ha.
  assert (A : forall d, In d (arrayOrEmpty (decorators member)) ->
                        isDecoratorCall "Watch" d || isDecoratorCall "Listen" d = true ->
                        hasFirstArgument d = true).
  { intros d Hd Hw. apply (proj1 (forallb_forall _ _) Ha). apply filter_In. auto. }
  assert (W : forall s, exists s', watchStep member s = Ok s').
  { intros s. unfold watchStep, hasDecoratorNamed.
    destruct (decorators member) as [decs|]; simpl in *; [|eauto].
    destruct (find (isDecoratorCall "Watch") decs) as [d|] eqn:F; [|eauto].
    apply find_some in F as [Hd Hw].
    rewrite (literalArgument_present d) by (apply A; [exact Hd | rewrite Hw; reflexivity]).
    simpl. eauto. }
  assert (L : forall s, exists s', listenStep member s = Ok s').
  { intros s. unfold listenStep. destruct (hasDecoratorNamed member "Listen"); [|eauto].
    rewrite mapM_literalArgument_present; [simpl; eauto|].
    apply forallb_forall. intros d Hd. apply filter_In in Hd as [Hd Hl].
    apply A; [exact Hd | rewrite Hl; apply orb_true_r]. }
  unfold decoratedStep.
  destruct (W (if hasDecoratorNamed member "State"
               then push_states (toName member)
                      (if hasDecoratorNamed member "Element"
                       then push_elements (toName member) meta else meta)
               else if hasDecoratorNamed member "Element"
                    then push_elements (toName member) meta else meta)) as [m1 ->].
  simpl. destruct (L m1) as [m2 ->]. simpl. eauto.
Qed.

Lemma componentBlock_total (c : Node) (meta : DocumentMeta) :
  isNamedClass c = true ->
  forallb argumentsPresent (members c) = true ->
  exists meta', componentBlock c meta = Ok meta'.
Proof.
  intros Hn Ha. destruct c as [| | | | |d nm h ms| | |]; try discriminate Hn.
  simpl in Ha. unfold componentBlock.
  destruct nm as [n|]; [|discriminate Hn].
  assert (E : exists cn, match n with Identifier text => Ok (VString text) | _ => Ok VFalse end
                         = Ok cn) by (destruct n; eauto).
  destruct E as [cn ->]. cbn [mbind result_bind].
  destruct (forEach_total undecoratedStep (List.filter isUndecorated ms)
              (fun x _ s => undecoratedStep_total x s) (set_className cn meta)) as [m1 ->].
  cbn [mbind result_bind]. apply forEach_total.
  intros x Hx s. apply decoratedStep_total.
  apply filter_In in Hx as [Hx _]. apply (proj1 (forallb_forall _ _) Ha x Hx).
Qed.

Lemma gatherDocumentMeta_total (sf : SourceFile) :
  forallb isNamedClass (componentClasses sf) = true ->
  forallb argumentsPresent (componentMembers sf) = true ->
  exists meta, gatherDocumentMeta sf = Ok meta.
Proof.
  intros Hn Ha. rewrite gatherDocumentMeta_fold. apply forEach_total.
  intros c Hc s. apply componentBlock_total.
  - apply (proj1 (forallb_forall _ _) Hn c Hc).
  - apply forallb_forall. intros m Hm.
    apply (proj1 (forallb_forall _ _) Ha). unfold componentMembers.
    apply in_flat_map. exists c. auto.
Qed.

(** A [Watch] annotation without argument makes the extraction raise. *)
Lemma watch_without_argument_raises :
  gatherDocumentMeta noArgumentFile = TypeError.
Proof. vm_compute. reflexivity. Qed.

(** C4, as stated, fails: a [Watch] annotation whose argument is not a string
    literal still contributes a watched entry, with [false] as the property
    observed, and a [Listen] annotation a listener entry, with [false] among
    its events. *)
Lemma non_literal_argument_still_recorded :
  gatherDocumentMeta constantArgumentFile = Ok constantArgumentMeta
  /\ watched constantArgumentMeta = [{| prop := VFalse; handler := VString "onChange" |}]
  /\ listeners constantArgumentMeta
     = [{| events := [VFalse]; l_handler := VString "onEvent" |}].
Proof. split; [vm_compute; reflexivity|]. split; reflexivity. Qed.

(** C4 (amended). Every member of a component class that carries a [Watch]
    annotation contributes one watched entry, and every member that carries
    [Listen] annotations one listener entry; a first argument that is not a
    string literal is recorded as [false] (the property observed, or the event
    at the place of that annotation). Extraction returns a model whenever
    every component class has a name and every [Watch] and [Listen]
    annotation of a member has a first argument. *)
Theorem watch_listen_entries (sf : SourceFile) :
  (forall meta, gatherDocumentMeta sf = Ok meta ->
     watched meta = map watchedEntryOf
                      (List.filter (fun m => hasDecoratorNamed m "Watch") (componentMembers sf))
     /\ listeners meta = map listenerEntryOf
                           (List.filter (fun m => hasDecoratorNamed m "Listen")
                              (componentMembers sf)))
  /\ (forallb isNamedClass (componentClasses sf) = true ->
      forallb argumentsPresent (componentMembers sf) = true ->
      exists meta, gatherDocumentMeta sf = Ok meta)
  /\ (forall callee arg rest,
        isStringLiteral arg = false ->
        argumentText (CallExpression callee (arg :: rest)) = VFalse
        /\ literalArgument (CallExpression callee (arg :: rest)) = Ok VFalse).
Proof.
  split; [intros meta H; apply gatherDocumentMeta_entries, H|].
  split; [apply gatherDocumentMeta_total|].
  intros callee arg rest H. destruct arg; try discriminate H; split; reflexivity.
Qed.

Lemma watch_listen_entries_witness :
  forallb isNamedClass (componentClasses constantArgumentFile) = true
  /\ forallb argumentsPresent (componentMembers constantArgumentFile) = true
  /\ (exists meta, gatherDocumentMeta constantArgumentFile = Ok meta)
  /\ watched constantArgumentMeta
     = map watchedEntryOf
         (List.filter (fun m => hasDecoratorNamed m "Watch")
            (componentMembers constantArgumentFile)).
Proof.
  destruct (watch_listen_entries constantArgumentFile) as (He & Ht & _).
  split; [reflexivity|]. split; [reflexivity|].
  split; [apply Ht; reflexivity|].
  apply (He constantArgumentMeta). vm_compute. reflexivity.
Defined.

(** ** findReferences *)

Lemma stringIndexOf_Some (src pattern : string) (i : nat) :
  String.index 0 pattern src = Some i ->
  stringIndexOf src pattern = Z.of_nat i /\ (stringIndexOf src pattern >? -1) = true.
Proof.
  unfold stringIndexOf. intros ->. split; [reflexivity|].
  apply Z.gtb_lt. lia.
Qed.

Lemma stringIndexOf_None (src pattern : string) :
  String.index 0 pattern src = None ->
  stringIndexOf src pattern = -1.
Proof. unfold stringIndexOf. intros ->. reflexivity. Qed.



Lemma nameAt_text (node : Node) (t : string) :
  nameAt node = Some t ->
  match node with
  | Identifier t => VString t
  | PropertyDeclaration _ (Identifier t) _ => VString t
  | _ => VUndefined
  end = VString t.
Proof.
  destruct node as [| | | | | |d n r| |]; simpl; try congruence.
  destruct n; congruence.
Qed.

Section References.

Context {DefinitionInfo Options : Type}.
Implicit Types h : Host DefinitionInfo Options.

Lemma findReferences_unfold h (file : string) (position : Z) (sf : SourceFile)
    (meta : DocumentMeta) (node : Node) (t : string) :
  getSourceFile h file = Some sf ->
  gatherDocumentMeta sf = Ok meta ->
  getNode h file position = Some node ->
  nameAt node = Some t ->
  findReferences h file position =
  if existsb (fun w => Value_eqb (prop w) (VString t)) (watched meta) then
    match quotedOffset (getText sf) t with
    | Some found =>
        match host_findReferences h file position with
        | Some (first :: others) =>
            Ok (Some ((first :: others)
                      ++ [stringReference (definition first) file found t]))
        | _ => TypeError
        end
    | None => Ok (host_findReferences h file position)
    end
  else Ok (host_findReferences h file position).
Proof.
  intros Hsf Hg Hn Ht. unfold findReferences.
  rewrite Hsf. cbn [gatherFrom]. rewrite Hg. cbn [mbind result_bind].
  rewrite Hn. cbn [mbind result_bind]. rewrite (nameAt_text _ _ Ht).
  destruct (existsb _ (watched meta)); [|reflexivity].
  cbn [mbind result_bind toString]. unfold quotedOffset.
  destruct (String.index 0 (dquote +:+ t +:+ dquote) (getText sf)) as [i|] eqn:D.
  - destruct (stringIndexOf_Some _ _ _ D) as [-> G]. rewrite G. cbn [negb].
    rewrite G. destruct (host_findReferences h file position) as [[|first others]|];
      reflexivity.
  - rewrite (stringIndexOf_None _ _ D). change (-1 >? -1) with false. cbn [negb].
    destruct (String.index 0 (squote +:+ t +:+ squote) (getText sf)) as [j|] eqn:S.
    + destruct (stringIndexOf_Some _ _ _ S) as [-> G]. rewrite G.
      destruct (host_findReferences h file position) as [[|first others]|]; reflexivity.
    + rewrite (stringIndexOf_None _ _ S). change (-1 >? -1) with false. reflexivity.
Qed.


End References.



(** ** getCompletionEntryDetails *)

Section Details.

Context {DefinitionInfo Options : Type}.
Implicit Types h : Host DefinitionInfo Options.

Lemma sameScope_true (c : DetailCache) (file : string) (position : Z) :
  sameScope c file position = true <->
  cachedCompletionEntryDetailsFileName c = Some file
  /\ cachedCompletionEntryDetailsPosition c = Some position.
Proof.
  unfold sameScope.
  destruct (cachedCompletionEntryDetailsFileName c) as [f|],
           (cachedCompletionEntryDetailsPosition c) as [p|]; split;
    try (intros H; discriminate H); try (intros [H1 H2]; discriminate).
  - intros H. apply andb_true_iff in H as [Hf Hp].
    apply String.eqb_eq in Hf. apply Z.eqb_eq in Hp. subst. auto.
  - intros [[= ->] [= ->]]. rewrite String.eqb_refl, Z.eqb_refl. reflexivity.
Qed.

(** What a successful [store] leaves. *)
Lemma store_Ok (c c' : DetailCache) (file : string) (position : Z) (n : string)
    (prior : CompletionEntryDetails) :
  store c file position n prior = Ok c' ->
  sameScope c' file position = true
  /\ (if sameScope c file position
      then exists names,
             cachedCompletionEntryDetailsNames c = Some names
             /\ cachedCompletionEntryDetailsNames c' = Some (names ++ [n])
             /\ cachedCompletionEntryDetails c'
                = <[n := prior]> (cachedCompletionEntryDetails c)
      else c' = {| cachedCompletionEntryDetailsFileName := Some file;
                   cachedCompletionEntryDetailsPosition := Some position;
                   cachedCompletionEntryDetailsNames := Some [n];
                   cachedCompletionEntryDetails := {[ n := prior ]} |}).
Proof.
  unfold store. destruct (sameScope c file position) eqn:E.
  - destruct (cachedCompletionEntryDetailsNames c) as [names|]; [|discriminate].
    intros [= <-]. split.
    + apply sameScope_true in E as [Ef Ep]. apply sameScope_true. simpl. auto.
    + exists names. auto.
  - intros [= <-]. split; [|reflexivity].
    apply sameScope_true. simpl. auto.
Qed.

Lemma computeDetails_Ok h (c c' : DetailCache) (file : string) (position : Z)
    (n : string) (opts : Options) (prior : CompletionEntryDetails) (calls : list HostCall) :
  computeDetails h c file position n opts = (Ok (prior, c'), calls) ->
  store c file position n prior = Ok c'
  /\ calls = [CallGetSourceFile file; CallGetCompletionEntryDetails file position n].
Proof.
  unfold computeDetails.
  destruct (gatherFrom (getSourceFile h file)) as [meta|]; [|discriminate].
  destruct (host_getCompletionEntryDetails h file position n opts) as [raw|]; [|discriminate].
  destruct (if String.eqb (d_kind raw) "property" || String.eqb (d_kind raw) "method"
            then addStencilDisplayParts meta n raw else Ok raw) as [p|];
    cbn [mbind result_bind]; [|discriminate].
  destruct (store c file position n p) as [c1|] eqn:S; cbn [mbind result_bind];
    [|discriminate].
  intros [= <- <- <-]. auto.
Qed.

Lemma computeDetails_calls h (c : DetailCache) (file : string) (position : Z)
    (n : string) (opts : Options) :
  exists rest, snd (computeDetails h c file position n opts) = CallGetSourceFile file :: rest.
Proof.
  unfold computeDetails.
  destruct (gatherFrom (getSourceFile h file)) as [meta|]; [|simpl; eauto].
  destruct (host_getCompletionEntryDetails h file position n opts); simpl; eauto.
Qed.

Lemma existsb_eqb_app_l (n : string) (names extra : list string) :
  existsb (String.eqb n) names = true -> existsb (String.eqb n) (names ++ extra) = true.
Proof. intros H. rewrite existsb_app, H. reflexivity. Qed.

(** A request answered with a value leaves that value cached under its name. *)
Lemma request_caches h (c c' : DetailCache) (file : string) (position : Z) (n : string)
    (opts : Options) (v : CompletionEntryDetails) (calls : list HostCall) :
  getCompletionEntryDetails h c file position n opts = (Ok (Some v), c', calls) ->
  cachedIn c' file position n v.
Proof.
  unfold getCompletionEntryDetails, cachedIn.
  assert (M : forall r, (match computeDetails h c file position n opts with
                         | (Ok (prior, c1), calls1) => (Ok (Some prior), c1, calls1)
                         | (TypeError, calls1) => (TypeError, c, calls1)
                         end) = r -> r = (Ok (Some v), c', calls) ->
                        sameScope c' file position = true
                        /\ exists names, cachedCompletionEntryDetailsNames c' = Some names
                                         /\ existsb (String.eqb n) names = true
                                         /\ cachedCompletionEntryDetails c' !! n = Some v).
  { intros r <-. destruct (computeDetails h c file position n opts) as [[[p c1]|] cl] eqn:E;
      [|discriminate]. intros [= -> -> ->].
    apply computeDetails_Ok in E as [E _]. apply store_Ok in E as [S1 S2].
    split; [exact S1|]. destruct (sameScope c file position).
    - destruct S2 as (names & _ & -> & ->). exists (names ++ [n]).
      split; [reflexivity|]. split; [|apply lookup_insert_eq].
      rewrite existsb_app. simpl. rewrite String.eqb_refl. apply orb_true_r.
    - subst c'. simpl. exists [n]. split; [reflexivity|].
      split; [simpl; rewrite String.eqb_refl; reflexivity | apply lookup_insert_eq]. }
  destruct (sameScope c file position) eqn:Sc; [|intros H; apply (M _ eq_refl H)].
  destruct (cachedCompletionEntryDetailsNames c) as [names|] eqn:N; [|discriminate].
  destruct (existsb (String.eqb n) names) eqn:Ex; [|intros H; apply (M _ eq_refl H)].
  intros [= Hv <- _]. split; [exact Sc|]. exists names. auto.
Qed.

(** A cached name is answered from the cache, with no call on the wrapped
    service and no change of the cache. *)
Lemma cached_answer h (c : DetailCache) (file : string) (position : Z) (n : string)
    (opts : Options) (v : CompletionEntryDetails) :
  cachedIn c file position n v ->
  getCompletionEntryDetails h c file position n opts = (Ok (Some v), c, []).
Proof.
  intros (Sc & names & N & Ex & L). unfold getCompletionEntryDetails.
  rewrite Sc, N, Ex, L. reflexivity.
Qed.

(** Another request in the same scope keeps what is cached. *)
Lemma request_keeps h (c : DetailCache) (file : string) (position : Z) (n n' : string)
    (opts : Options) (v : CompletionEntryDetails) :
  cachedIn c file position n v ->
  cachedIn (snd (fst (getCompletionEntryDetails h c file position n' opts))) file position n v.
Proof.
  intros (Sc & names & N & Ex & L). unfold getCompletionEntryDetails.
  rewrite Sc, N. destruct (existsb (String.eqb n') names) eqn:Ex'.
  - simpl. split; [exact Sc|]. exists names. auto.
  - destruct (computeDetails h c file position n' opts) as [[[p c1]|] cl] eqn:E; simpl.
    + apply computeDetails_Ok in E as [E _]. apply store_Ok in E as [S1 S2].
      rewrite Sc in S2. destruct S2 as (names0 & N0 & N1 & D1).
      rewrite N in N0. injection N0 as <-.
      split; [exact S1|]. exists (names ++ [n']). split; [exact N1|].
      split; [apply existsb_eqb_app_l, Ex|].
      rewrite D1, lookup_insert_ne; [exact L|].
      intros ->. rewrite Ex in Ex'. discriminate Ex'.
    + split; [exact Sc|]. exists names. auto.
Qed.

Lemma runDetails_keeps (c : DetailCache) (file : string) (position : Z) (n : string)
    (v : CompletionEntryDetails) (rs : list (DetailRequest DefinitionInfo Options)) :
  Forall (fun r => r_fileName r = file /\ r_position r = position) rs ->
  cachedIn c file position n v ->
  cachedIn (runDetails c rs) file position n v.
Proof.
  intros Hrs. revert c. induction Hrs as [|r rs [Hf Hp] _ IH]; intros c Hc; simpl.
  - exact Hc.
  - apply IH. rewrite Hf, Hp. apply request_keeps, Hc.
Qed.

(** C9. A detail request answered with a value under a new (file, position)
    pair leaves a cache that holds that value under its name and nothing
    else, scoped to the pair; after any requests for the same pair, a request
    for the same name is answered with the same value, from the cache, with no
    call on the wrapped service; a request under another pair calls it. *)
Theorem detail_cache_scoped h (c c1 : DetailCache) (file : string) (position : Z)
    (n : string) (opts : Options) (v : CompletionEntryDetails) (calls : list HostCall) :
  getCompletionEntryDetails h c file position n opts = (Ok (Some v), c1, calls) ->
  (sameScope c file position = false ->
   c1 = {| cachedCompletionEntryDetailsFileName := Some file;
           cachedCompletionEntryDetailsPosition := Some position;
           cachedCompletionEntryDetailsNames := Some [n];
           cachedCompletionEntryDetails := {[ n := v ]} |}
   /\ calls = [CallGetSourceFile file; CallGetCompletionEntryDetails file position n])
  /\ (forall (rs : list (DetailRequest DefinitionInfo Options)),
        Forall (fun r => r_fileName r = file /\ r_position r = position) rs ->
        forall h' opts',
          getCompletionEntryDetails h' (runDetails c1 rs) file position n opts'
          = (Ok (Some v), runDetails c1 rs, []))
  /\ (forall file' position' h' opts',
        sameScope c1 file' position' = false ->
        exists rest,
          snd (getCompletionEntryDetails h' c1 file' position' n opts')
          = CallGetSourceFile file' :: rest).
Proof.
  intros H. split; [|split].
  - intros Sc. unfold getCompletionEntryDetails in H. rewrite Sc in H.
    destruct (computeDetails h c file position n opts) as [[[p c2]|] cl] eqn:E;
      [|discriminate]. injection H as -> -> ->.
    apply computeDetails_Ok in E as [E ->]. apply store_Ok in E as [_ S2].
    rewrite Sc in S2. auto.
  - intros rs Hrs h' opts'. apply cached_answer, runDetails_keeps; [exact Hrs|].
    apply (request_caches _ _ _ _ _ _ _ _ _ H).
  - intros file' position' h' opts' Sc. unfold getCompletionEntryDetails. rewrite Sc.
    destruct (computeDetails_calls h' c1 file' position' n opts') as [rest R].
    destruct (computeDetails h' c1 file' position' n opts') as [[[p c2]|] cl];
      simpl in *; eauto.
Qed.

End Details.

Lemma detail_cache_scoped_witness :
  getCompletionEntryDetails propertyService initialCache "counter.tsx" 120 "count" tt
  = (Ok (Some countDetail),
     {| cachedCompletionEntryDetailsFileName := Some "counter.tsx";
        cachedCompletionEntryDetailsPosition := Some 120;
        cachedCompletionEntryDetailsNames := Some ["count"];
        cachedCompletionEntryDetails := {[ "count" := countDetail ]} |},
     [CallGetSourceFile "counter.tsx";
      CallGetCompletionEntryDetails "counter.tsx" 120 "count"])
  /\ fst (getCompletionEntryDetails methodService
            (runDetails
               {| cachedCompletionEntryDetailsFileName := Some "counter.tsx";
                  cachedCompletionEntryDetailsPosition := Some 120;
                  cachedCompletionEntryDetailsNames := Some ["count"];
                  cachedCompletionEntryDetails := {[ "count" := countDetail ]} |}
               [{| r_host := methodService; r_fileName := "counter.tsx";
                   r_position := 120; r_name := "componentDidLoad"; r_opts := tt |}])
            "counter.tsx" 120 "count" tt)
     = (Ok (Some countDetail),
        runDetails
          {| cachedCompletionEntryDetailsFileName := Some "counter.tsx";
             cachedCompletionEntryDetailsPosition := Some 120;
             cachedCompletionEntryDetailsNames := Some ["count"];
             cachedCompletionEntryDetails := {[ "count" := countDetail ]} |}
          [{| r_host := methodService; r_fileName := "counter.tsx";
              r_position := 120; r_name := "componentDidLoad"; r_opts := tt |}]).
Proof.
  assert (H : getCompletionEntryDetails propertyService initialCache "counter.tsx" 120
                "count" tt
              = (Ok (Some countDetail),
                 {| cachedCompletionEntryDetailsFileName := Some "counter.tsx";
                    cachedCompletionEntryDetailsPosition := Some 120;
                    cachedCompletionEntryDetailsNames := Some ["count"];
                    cachedCompletionEntryDetails := {[ "count" := countDetail ]} |},
                 [CallGetSourceFile "counter.tsx";
                  CallGetCompletionEntryDetails "counter.tsx" 120 "count"]))
    by (vm_compute; reflexivity).
  split; [exact H|].
  destruct (detail_cache_scoped _ _ _ _ _ _ _ _ _ H) as (_ & Hr & _).
  rewrite (Hr [{| r_host := methodService; r_fileName := "counter.tsx";
                  r_position := 120; r_name := "componentDidLoad"; r_opts := tt |}]).
  - reflexivity.
  - constructor; [split; reflexivity | constructor].
Defined.

(** A detail request for a property or method whose name is in no bucket
    raises, and leaves the cache as it was. *)
Lemma unmatched_detail_raises {DefinitionInfo Options : Type}
    (h : Host DefinitionInfo Options) (c : DetailCache) (file : string) (position : Z)
    (n : string) (opts : Options) (sf : SourceFile) (meta : DocumentMeta)
    (raw : CompletionEntryDetails) :
  getSourceFile h file = Some sf ->
  gatherDocumentMeta sf = Ok meta ->
  host_getCompletionEntryDetails h file position n opts = Some raw ->
  String.eqb (d_kind raw) "property" || String.eqb (d_kind raw) "method" = true ->
  getCategory meta n = None ->
  sameScope c file position = false ->
  getCompletionEntryDetails h c file position n opts
  = (TypeError, c, [CallGetSourceFile file; CallGetCompletionEntryDetails file position n]).
Proof.
  intros Hsf Hg Hraw Hk Hc Sc.
  unfold getCompletionEntryDetails, computeDetails, addStencilDisplayParts.
  rewrite Sc, Hsf. cbn [gatherFrom]. rewrite Hg, Hraw, Hk, Hc. reflexivity.
Qed.

(** C6 fails on the code: for the inherited method [toString], which is in no
    bucket of the model of [counterFile], and a raw detail of kind method, the
    request raises instead of returning the raw detail. *)
Theorem unmatched_name_detail_raises :
  gatherDocumentMeta counterFile = Ok counterMeta
  /\ getCategory counterMeta "toString" = None
  /\ d_kind (rawDetail "method" "toString") = "method"
  /\ getCompletionEntryDetails methodService initialCache "counter.tsx" 120 "toString" tt
     = (TypeError, initialCache,
        [CallGetSourceFile "counter.tsx";
         CallGetCompletionEntryDetails "counter.tsx" 120 "toString"]).
Proof.
  split; [vm_compute; reflexivity|]. split; [vm_compute; reflexivity|].
  split; [reflexivity|]. vm_compute. reflexivity.
Qed.

(** * Further properties *)

(** ** Extraction: when it raises, what it ignores, how it composes *)

Lemma literalArgument_raises (d : Node) :
  hasFirstArgument d = false -> literalArgument d = TypeError.
Proof.
  destruct d as [| |e [|a args]| | | | | |]; simpl; intros H; try discriminate H.
  reflexivity.
Qed.

Lemma mapM_literalArgument_raises (ds : list Node) :
  forallb hasFirstArgument ds = false -> mapM literalArgument ds = TypeError.
Proof.
  induction ds as [|d ds IH]; simpl; intros H; [discriminate H|].
  destruct (hasFirstArgument d) eqn:E.
  - rewrite (literalArgument_present _ E). simpl in *. rewrite (IH H). reflexivity.
  - rewrite (literalArgument_raises _ E). reflexivity.
Qed.

Lemma watchStep_outcome (member : Node) (meta : DocumentMeta) :
  if watchRaises member
  then watchStep member meta = TypeError
  else exists meta', watchStep member meta = Ok meta'.
Proof.
  unfold watchRaises, watchStep.
  destruct (hasDecoratorNamed member "Watch"); simpl; [|eauto].
  destruct (find _ _) as [d|]; simpl; [|reflexivity].
  destruct (hasFirstArgument d) eqn:E; simpl.
  - rewrite (literalArgument_present _ E). simpl. eauto.
  - rewrite (literalArgument_raises _ E). reflexivity.
Qed.

Lemma listenStep_outcome (member : Node) (meta : DocumentMeta) :
  if listenRaises member
  then listenStep member meta = TypeError
  else exists meta', listenStep member meta = Ok meta'.
Proof.
  unfold listenRaises, listenStep.
  destruct (hasDecoratorNamed member "Listen"); simpl; [|eauto].
  destruct (forallb hasFirstArgument _) eqn:E; simpl.
  - rewrite (mapM_literalArgument_present _ E). simpl. eauto.
  - rewrite (mapM_literalArgument_raises _ E). reflexivity.
Qed.

Lemma decoratedStep_outcome (member : Node) (meta : DocumentMeta) :
  (exists meta', decoratedStep member meta = Ok meta') <-> stepRaises member = false.
Proof.
  unfold decoratedStep, stepRaises.
  match goal with
  | |- context [watchStep member ?m] => pose proof (watchStep_outcome member m) as W
  end.
  destruct (watchRaises member); simpl.
  - rewrite W. simpl. split; [intros [? H]; discriminate H | discriminate].
  - destruct W as [m1 ->]. simpl.
    pose proof (listenStep_outcome member m1) as L.
    destruct (listenRaises member).
    + rewrite L. simpl. split; [intros [? H]; discriminate H | discriminate].
    + destruct L as [m2 ->]. simpl. split; eauto.
Qed.

Lemma forEach_Ok_iff {A S : Type} (f : A -> S -> result S) (ok : A -> bool) (xs : list A) :
  (forall x, In x xs -> forall s, (exists s', f x s = Ok s') <-> ok x = true) ->
  forall s, (exists s', forEach f xs s = Ok s') <-> forallb ok xs = true.
Proof.
  induction xs as [|x xs IH]; intros Hf s; simpl.
  - split; eauto.
  - pose proof (Hf x (or_introl eq_refl) s) as Hx.
    destruct (f x s) as [s1|] eqn:E; simpl.
    + rewrite (proj1 Hx (ex_intro _ s1 eq_refl)). simpl.
      apply IH. intros y Hy. apply Hf. right. exact Hy.
    + split; [intros [? H]; discriminate H|].
      intros H. apply andb_true_iff in H as [H _].
      apply Hx in H as [? H]. discriminate H.
Qed.

Lemma undecorated_never_raises (member : Node) :
  isUndecorated member = true -> stepRaises member = false.
Proof.
  intros H. unfold stepRaises, watchRaises, listenRaises.
  rewrite !(undecorated_no_decorator _ _ H). reflexivity.
Qed.

Lemma componentBlock_outcome (c : Node) (meta : DocumentMeta) :
  isComponentClass c = true ->
  (exists meta', componentBlock c meta = Ok meta')
  <-> isNamedClass c && forallb (fun m => negb (stepRaises m)) (members c) = true.
Proof.
  intros Hc. destruct c as [| | | | |d nm h ms| | |]; try discriminate Hc.
  unfold componentBlock. simpl members. simpl isNamedClass.
  destruct nm as [n|]; [|simpl; split; [intros [? H]; discriminate H | discriminate]].
  assert (E : exists cn, match n with Identifier text => Ok (VString text) | _ => Ok VFalse end
                         = Ok cn) by (destruct n; eauto).
  destruct E as [cn ->]. cbn [mbind result_bind andb].
  destruct (forEach_total undecoratedStep (List.filter isUndecorated ms)
              (fun x _ s => undecoratedStep_total x s) (set_className cn meta)) as [m1 ->].
  cbn [mbind result_bind].
  rewrite (forEach_Ok_iff decoratedStep (fun m => negb (stepRaises m)))
    by (intros x _ s; rewrite decoratedStep_outcome; apply (symmetry (negb_true_iff _))).
  rewrite !forallb_forall. split.
  - intros H m Hm. destruct (isDecorated m) eqn:D.
    + apply H, filter_In. auto.
    + rewrite undecorated_never_raises; [reflexivity|].
      unfold isDecorated in D. unfold isUndecorated. destruct (decorators m); congruence.
  - intros H m Hm. apply filter_In in Hm as [Hm _]. apply H, Hm.
Qed.

Lemma forEach_componentBlock_outcome (cs : list Node) (meta : DocumentMeta) :
  Forall (fun c => isComponentClass c = true) cs ->
  (exists meta', forEach componentBlock cs meta = Ok meta')
  <-> forallb isNamedClass cs = true
      /\ forallb (fun m => negb (stepRaises m)) (flat_map members cs) = true.
Proof.
  intros Hcs.
  rewrite (forEach_Ok_iff componentBlock
             (fun c => isNamedClass c && forallb (fun m => negb (stepRaises m)) (members c))).
  - clear Hcs. induction cs as [|c cs IH]; simpl; [tauto|].
    rewrite forallb_app, !andb_true_iff, IH. tauto.
  - intros c Hc s. apply componentBlock_outcome.
    apply (proj1 (List.Forall_forall _ _) Hcs c Hc).
Qed.

Lemma componentClasses_are_components (sf : SourceFile) :
  Forall (fun c => isComponentClass c = true) (componentClasses sf).
Proof.
  apply List.Forall_forall. intros c Hc. apply filter_In in Hc as [_ Hc]. exact Hc.
Qed.

(** X1. Extraction returns a model exactly when every component class of the
    file has a name and no member of a component class has a first [Watch]
    annotation, or a [Listen] annotation, without argument; otherwise it
    raises. *)
Theorem extraction_returns_iff (sf : SourceFile) :
  (exists meta, gatherDocumentMeta sf = Ok meta)
  <-> forallb isNamedClass (componentClasses sf) = true
      /\ forallb (fun m => negb (stepRaises m)) (componentMembers sf) = true.
Proof.
  rewrite gatherDocumentMeta_fold.
  apply forEach_componentBlock_outcome, componentClasses_are_components.
Qed.

Lemma classNameOf_not_null (c : Node) : classNameOf c <> VNull.
Proof. destruct c as [| | | | |d [[]|] h ms| | |]; discriminate. Qed.

Lemma last_map_not_default {A B : Type} (f : A -> B) (xs : list A) (d : B) :
  (forall x, f x <> d) -> (List.last (map f xs) d = d <-> xs = []).
Proof.
  intros Hf. destruct xs as [|x xs]; [split; reflexivity|].
  split; [|discriminate]. intros H. exfalso.
  assert (L : forall (l : list B) (y : B), In (List.last (y :: l) d) (y :: l)).
  { induction l as [|z l IH]; intros y; [left; reflexivity|].
    right. apply IH. }
  pose proof (L (map f xs) (f x)) as I. change (f x :: map f xs) with (map f (x :: xs)) in I.
  rewrite H in I. apply in_map_iff in I as (y & Hy & _). apply (Hf y Hy).
Qed.

(** X2. When extraction returns a model, the class name of the model is
    [null] exactly when the file has no class that carries the component
    annotation, and then the model is the empty one. *)
Theorem no_component_class_empty_model (sf : SourceFile) (meta : DocumentMeta) :
  gatherDocumentMeta sf = Ok meta ->
  (className meta = VNull <-> componentClasses sf = [])
  /\ (componentClasses sf = [] -> meta = emptyMeta).
Proof.
  intros H. split.
  - rewrite gatherDocumentMeta_fold in H.
    assert (F : Forall (fun c => isClassDeclaration c = true) (componentClasses sf)).
    { apply List.Forall_forall. intros c Hc. apply filter_In in Hc as [_ Hc].
      destruct c; try discriminate Hc. reflexivity. }
    rewrite (forEach_componentBlock_className (componentClasses sf) emptyMeta meta F H).
    apply last_map_not_default, classNameOf_not_null.
  - intros E. rewrite gatherDocumentMeta_fold, E in H. simpl in H. congruence.
Qed.

Lemma no_component_class_empty_model_witness :
  gatherDocumentMeta counterFile = Ok counterMeta
  /\ (className counterMeta = VNull <-> componentClasses counterFile = []).
Proof.
  assert (H : gatherDocumentMeta counterFile = Ok counterMeta) by (vm_compute; reflexivity).
  split; [exact H|].
  apply (proj1 (no_component_class_empty_model counterFile counterMeta H)).
Defined.

(** X3. In every model extraction returns, the builtin names [render] and
    [hostData] are in none of internalProperties, internalMethods and
    lifecycle; every name in lifecycle is one of the five lifecycle names, and
    none of the five is in internalProperties or internalMethods. *)
Theorem undecorated_buckets_by_name (sf : SourceFile) (meta : DocumentMeta) (v : Value) :
  gatherDocumentMeta sf = Ok meta ->
  (In v (map VString ComponentBuiltinMethods) ->
   ~ In v (internalProperties meta) /\ ~ In v (internalMethods meta)
   /\ ~ In v (lifecycle meta))
  /\ (In v (lifecycle meta) -> In v (map VString ComponentLifecycleMethods))
  /\ (In v (map VString ComponentLifecycleMethods) ->
      ~ In v (internalProperties meta) /\ ~ In v (internalMethods meta)).
Proof.
  intros H. pose proof (gatherDocumentMeta_buckets sf meta H) as B.
  assert (I : forall names x, includes (map VString names) x = true
                              <-> In x (map VString names)).
  { intros names x. unfold includes. rewrite existsb_exists. split.
    - intros (y & Hy & E). apply in_map_iff in Hy as (t & <- & Ht).
      destruct x; simpl in E; try discriminate E.
      apply String.eqb_eq in E. subst. apply in_map, Ht.
    - intros Hx. exists x. split; [exact Hx|].
      apply in_map_iff in Hx as (t & <- & _). simpl. apply String.eqb_refl. }
  assert (P : forall b, In v (bucketNames b meta) ->
                        exists m, toName m = v /\ placedIn b m = true).
  { intros b Hb. rewrite B in Hb. apply in_map_iff in Hb as (m & E & Hm).
    apply filter_In in Hm as [_ Hm]. eauto. }
  split; [|split].
  - intros Hv. repeat split; intros Hb.
    + destruct (P InternalProperties Hb) as (m & <- & Hm). cbn [placedIn] in Hm.
      repeat (apply andb_true_iff in Hm as [Hm ?]).
      apply I in Hv. unfold isBuiltinName in *. rewrite Hv in *. discriminate.
    + destruct (P InternalMethods Hb) as (m & <- & Hm). cbn [placedIn] in Hm.
      repeat (apply andb_true_iff in Hm as [Hm ?]).
      apply I in Hv. unfold isBuiltinName in *. rewrite Hv in *. discriminate.
    + destruct (P Lifecycle Hb) as (m & <- & Hm). cbn [placedIn] in Hm.
      repeat (apply andb_true_iff in Hm as [Hm ?]).
      apply I in Hv. unfold isBuiltinName in *. rewrite Hv in *. discriminate.
  - intros Hb. destruct (P Lifecycle Hb) as (m & <- & Hm). cbn [placedIn] in Hm.
    apply andb_true_iff in Hm as [_ Hm]. apply I, Hm.
  - intros Hv. split; intros Hb.
    + destruct (P InternalProperties Hb) as (m & <- & Hm). cbn [placedIn] in Hm.
      repeat (apply andb_true_iff in Hm as [Hm ?]).
      apply I in Hv. unfold isLifecycleName in *. rewrite Hv in *. discriminate.
    + destruct (P InternalMethods Hb) as (m & <- & Hm). cbn [placedIn] in Hm.
      repeat (apply andb_true_iff in Hm as [Hm ?]).
      apply I in Hv. unfold isLifecycleName in *. rewrite Hv in *. discriminate.
Qed.

Lemma undecorated_buckets_by_name_witness :
  gatherDocumentMeta counterFile = Ok counterMeta
  /\ ~ In (VString "render") (internalMethods counterMeta)
  /\ In (VString "componentDidLoad") (map VString ComponentLifecycleMethods).
Proof.
  assert (H : gatherDocumentMeta counterFile = Ok counterMeta) by (vm_compute; reflexivity).
  split; [exact H|]. split.
  - apply (proj1 (undecorated_buckets_by_name counterFile counterMeta (VString "render") H)).
    left. reflexivity.
  - apply (proj1 (proj2 (undecorated_buckets_by_name counterFile counterMeta
                           (VString "componentDidLoad") H))).
    left. reflexivity.
Defined.

Lemma filter_flat_map {A B : Type} (p : B -> bool) (g : A -> list B) (xs : list A) :
  List.filter p (flat_map g xs) = flat_map (fun x => List.filter p (g x)) xs.
Proof.
  induction xs as [|x xs IH]; simpl; [reflexivity|].
  rewrite List.filter_app, IH. reflexivity.
Qed.

Lemma flat_map_all_nil {A B : Type} (g : A -> list B) (xs : list A) :
  (forall x, In x xs -> g x = []) -> flat_map g xs = [].
Proof.
  induction xs as [|x xs IH]; intros H; simpl; [reflexivity|].
  rewrite (H x (or_introl eq_refl)), IH; [reflexivity|].
  intros y Hy. apply H. right. exact Hy.
Qed.

Lemma componentClasses_app (t t1 t2 : string) (s1 s2 : list Node) :
  componentClasses (fileOf t (s1 ++ s2))
  = componentClasses (fileOf t1 s1) ++ componentClasses (fileOf t2 s2).
Proof.
  unfold componentClasses, fileOf. simpl.
  rewrite flat_map_app, List.filter_app. reflexivity.
Qed.

Lemma componentMembers_app (t t1 t2 : string) (s1 s2 : list Node) :
  componentMembers (fileOf t (s1 ++ s2))
  = componentMembers (fileOf t1 s1) ++ componentMembers (fileOf t2 s2).
Proof.
  unfold componentMembers. rewrite (componentClasses_app t t1 t2), flat_map_app. reflexivity.
Qed.

(** X4. Statements whose subtrees hold no component class, before and after
    the others, change nothing, and neither does the text of the file:
    extraction gives what it gives on the statements between them. *)
Theorem unrelated_statements_ignored (text text' : string) (before nodes after : list Node) :
  (forall n, In n (before ++ after) -> List.filter isComponentClass (preorder n) = []) ->
  gatherDocumentMeta (fileOf text (before ++ nodes ++ after))
  = gatherDocumentMeta (fileOf text' nodes).
Proof.
  intros H. rewrite !gatherDocumentMeta_fold.
  rewrite (componentClasses_app text text text' before (nodes ++ after)).
  rewrite (componentClasses_app text' text' text nodes after).
  assert (E : forall l t, (forall n, In n l -> List.filter isComponentClass (preorder n) = [])
                          -> componentClasses (fileOf t l) = []).
  { intros l t Hl. unfold componentClasses, fileOf. simpl.
    rewrite filter_flat_map. apply flat_map_all_nil, Hl. }
  rewrite (E before), (E after), app_nil_r; [reflexivity| |];
    intros n Hn; apply H, in_or_app; auto.
Qed.

Lemma unrelated_statements_ignored_witness :
  gatherDocumentMeta
    (fileOf "import { Component } from '@stencil/core';"
       ([OtherNode None None [Identifier "Component"; StringLiteral "@stencil/core"]]
        ++ statements twoComponents ++ [OtherNode None None []]))
  = gatherDocumentMeta (fileOf "" (statements twoComponents)).
Proof.
  apply unrelated_statements_ignored.
  intros n [<-|[<-|[]]]; reflexivity.
Defined.

Lemma last_app_default {A : Type} (xs ys : list A) (d : A) :
  List.last (xs ++ ys) d = List.last ys (List.last xs d).
Proof.
  revert d. induction xs as [|x xs IH]; intros d; [reflexivity|].
  change ((x :: xs) ++ ys) with (x :: (xs ++ ys)).
  rewrite !last_cons_default. apply IH.
Qed.

(** X5. When extraction returns a model for each of two lists of statements,
    it returns one for their concatenation: every bucket, and the watched and
    listener entries, are those of the first followed by those of the second,
    and the class name is that of the second unless it has no component
    class. *)
Theorem extraction_of_concatenation (t t1 t2 : string) (s1 s2 : list Node)
    (m1 m2 : DocumentMeta) :
  gatherDocumentMeta (fileOf t1 s1) = Ok m1 ->
  gatherDocumentMeta (fileOf t2 s2) = Ok m2 ->
  exists m, gatherDocumentMeta (fileOf t (s1 ++ s2)) = Ok m
            /\ (forall b, bucketNames b m = bucketNames b m1 ++ bucketNames b m2)
            /\ watched m = watched m1 ++ watched m2
            /\ listeners m = listeners m1 ++ listeners m2
            /\ className m = match className m2 with
                             | VNull => className m1
                             | v => v
                             end.
Proof.
  intros H1 H2.
  assert (E : exists m, gatherDocumentMeta (fileOf t (s1 ++ s2)) = Ok m).
  { rewrite gatherDocumentMeta_fold.
    apply forEach_componentBlock_outcome; [apply componentClasses_are_components|].
    fold (componentMembers (fileOf t (s1 ++ s2))).
    rewrite (componentClasses_app t t1 t2), (componentMembers_app t t1 t2), !forallb_app.
    assert (O1 : exists m, forEach componentBlock (componentClasses (fileOf t1 s1)) emptyMeta
                           = Ok m) by (rewrite <- gatherDocumentMeta_fold; eauto).
    assert (O2 : exists m, forEach componentBlock (componentClasses (fileOf t2 s2)) emptyMeta
                           = Ok m) by (rewrite <- gatherDocumentMeta_fold; eauto).
    apply forEach_componentBlock_outcome in O1 as [N1 R1];
      [|apply componentClasses_are_components].
    apply forEach_componentBlock_outcome in O2 as [N2 R2];
      [|apply componentClasses_are_components].
    unfold componentMembers. rewrite N1, N2, R1, R2. auto. }
  destruct E as [m H]. exists m. split; [exact H|].
  split; [|split; [|split]].
  - intros b.
    rewrite (gatherDocumentMeta_buckets _ _ H), (gatherDocumentMeta_buckets _ _ H1),
      (gatherDocumentMeta_buckets _ _ H2), (componentMembers_app t t1 t2),
      List.filter_app, map_app. reflexivity.
  - rewrite (proj1 (gatherDocumentMeta_entries _ _ H)),
      (proj1 (gatherDocumentMeta_entries _ _ H1)),
      (proj1 (gatherDocumentMeta_entries _ _ H2)), (componentMembers_app t t1 t2),
      List.filter_app, map_app. reflexivity.
  - rewrite (proj2 (gatherDocumentMeta_entries _ _ H)),
      (proj2 (gatherDocumentMeta_entries _ _ H1)),
      (proj2 (gatherDocumentMeta_entries _ _ H2)), (componentMembers_app t t1 t2),
      List.filter_app, map_app. reflexivity.
  - assert (F : forall sf, Forall (fun c => isClassDeclaration c = true) (componentClasses sf)).
    { intros sf. apply List.Forall_forall. intros c Hc. apply filter_In in Hc as [_ Hc].
      destruct c; try discriminate Hc. reflexivity. }
    rewrite gatherDocumentMeta_fold in H, H1, H2.
    rewrite (forEach_componentBlock_className _ _ _ (F _) H),
      (forEach_componentBlock_className _ _ _ (F _) H1),
      (forEach_componentBlock_className _ _ _ (F _) H2).
    rewrite (componentClasses_app t t1 t2), map_app, last_app_default. simpl className.
    destruct (componentClasses (fileOf t2 s2)) as [|c cs]; [reflexivity|].
    cbn [map]. rewrite !last_cons_default.
    destruct (List.last (map classNameOf cs) (classNameOf c)) eqn:L; try reflexivity.
    exfalso.
    assert (L' : List.last (map classNameOf (c :: cs)) VNull = VNull)
      by (cbn [map]; rewrite last_cons_default; exact L).
    apply (last_map_not_default classNameOf (c :: cs) VNull classNameOf_not_null) in L'.
    discriminate L'.
Qed.

Lemma extraction_of_concatenation_witness :
  exists m, gatherDocumentMeta
              (fileOf "" ([componentClass "First" [field (Some [decorator "State" []]) "a"]]
                          ++ [componentClass "Second" [field (Some [decorator "State" []]) "b"]]))
            = Ok m
            /\ className m = VString "Second".
Proof.
  destruct (extraction_of_concatenation "" "" ""
              [componentClass "First" [field (Some [decorator "State" []]) "a"]]
              [componentClass "Second" [field (Some [decorator "State" []]) "b"]]
              {| className := VString "First"; internalProperties := []; elements := [];
                 states := [VString "a"]; propsConnect := []; propsContext := [];
                 props := []; watched := []; m_events := []; lifecycle := [];
                 listeners := []; methods := []; internalMethods := [] |}
              {| className := VString "Second"; internalProperties := []; elements := [];
                 states := [VString "b"]; propsConnect := []; propsContext := [];
                 props := []; watched := []; m_events := []; lifecycle := [];
                 listeners := []; methods := []; internalMethods := [] |})
    as (m & H & _ & _ & _ & C); [vm_compute; reflexivity | vm_compute; reflexivity |].
  exists m. split; [exact H | exact C].
Defined.

(** ** getCategory *)

Lemma Value_eqb_eq (a b : Value) : Value_eqb a b = true <-> a = b.
Proof.
  destruct a, b; simpl; split; try discriminate; try reflexivity.
  - intros H. apply String.eqb_eq in H. congruence.
  - intros [= ->]. apply String.eqb_refl.
Qed.

Lemma includes_In (xs : list Value) (x : Value) : includes xs x = true <-> In x xs.
Proof.
  unfold includes. rewrite existsb_exists. split.
  - intros (y & Hy & E). apply Value_eqb_eq in E. subst. exact Hy.
  - intros H. exists x. split; [exact H | apply Value_eqb_eq; reflexivity].
Qed.

Lemma includes_false (xs : list Value) (x : Value) : includes xs x = false <-> ~ In x xs.
Proof.
  rewrite <- includes_In. destruct (includes xs x); split; congruence.
Qed.

Lemma find_by_key {A : Type} (key : A -> Value) (xs : list A) (v : Value) :
  match find (fun x => Value_eqb (key x) v) xs with
  | Some x => In x xs /\ key x = v
  | None => ~ In v (map key xs)
  end.
Proof.
  destruct (find _ xs) as [x|] eqn:F.
  - apply find_some in F as [Hx E]. apply Value_eqb_eq in E. auto.
  - intros H. apply in_map_iff in H as (x & E & Hx).
    pose proof (find_none _ _ F x Hx) as N. simpl in N.
    rewrite (proj2 (Value_eqb_eq _ _) E) in N. discriminate N.
Qed.

(** What [getCategory] answers, by the first bucket that holds the name. *)
Lemma getCategory_cases (meta : DocumentMeta) (n : string) :
  match getCategory meta n with
  | None => forall b, ~ In (VString n) (bucketNames b meta)
  | Some (item, c) =>
      exists b, c = categoryOf b
                /\ In (VString n) (bucketNames b meta)
                /\ (forall b', categoryRank (categoryOf b') < categoryRank c ->
                               ~ In (VString n) (bucketNames b' meta))
                /\ match item with
                   | ItemName x => x = n /\ b <> Watched /\ b <> Listeners
                   | ItemWatched w =>
                       b = Watched /\ In w (watched meta) /\ handler w = VString n
                   | ItemListener l =>
                       b = Listeners /\ In l (listeners meta) /\ l_handler l = VString n
                   end
  end.
Proof.
  unfold getCategory.
  pose proof (find_by_key handler (watched meta) (VString n)) as W.
  pose proof (find_by_key l_handler (listeners meta) (VString n)) as L.
  destruct (includes (internalProperties meta) (VString n)) eqn:E1;
    [|destruct (includes (elements meta) (VString n)) eqn:E2;
      [|destruct (includes (states meta) (VString n)) eqn:E3;
        [|destruct (includes (propsConnect meta) (VString n)) eqn:E4;
          [|destruct (includes (propsContext meta) (VString n)) eqn:E5;
            [|destruct (includes (props meta) (VString n)) eqn:E6;
              [|destruct (find _ (watched meta)) as [w|];
                [|destruct (includes (m_events meta) (VString n)) eqn:E8;
                  [|destruct (includes (lifecycle meta) (VString n)) eqn:E9;
                    [|destruct (find _ (listeners meta)) as [l|];
                      [|destruct (includes (methods meta) (VString n)) eqn:E11;
                        [|destruct (includes (internalMethods meta) (VString n))
                            eqn:E12]]]]]]]]]]];
    repeat match goal with
           | H : includes _ _ = true |- _ => apply includes_In in H
           | H : includes _ _ = false |- _ => apply includes_false in H
           end.
  all: try (intros b; destruct b; simpl; assumption).
  all: first [ exists InternalProperties; split; [reflexivity|]
             | exists Elements; split; [reflexivity|]
             | exists States; split; [reflexivity|]
             | exists PropsConnect; split; [reflexivity|]
             | exists PropsContext; split; [reflexivity|]
             | exists Props; split; [reflexivity|]
             | exists Watched; split; [reflexivity|]
             | exists Events; split; [reflexivity|]
             | exists Lifecycle; split; [reflexivity|]
             | exists Listeners; split; [reflexivity|]
             | exists Methods; split; [reflexivity|]
             | exists InternalMethods; split; [reflexivity|] ].
  all: split;
    [ simpl; first [ assumption
                   | destruct W as [Hw <-]; apply in_map; exact Hw
                   | destruct L as [Hl <-]; apply in_map; exact Hl ] |].
  all: split;
    [ intros b' Hr; destruct b'; vm_compute in Hr; try discriminate Hr; simpl; assumption |].
  all: first [ split; [reflexivity | split; discriminate]
             | split; [reflexivity | assumption] ].
Qed.

(** X6. The category lookup finds nothing exactly when the name is in none of
    the buckets of the model (nor a handler name of watched or listeners). *)
Theorem getCategory_none_iff (meta : DocumentMeta) (n : string) :
  getCategory meta n = None <-> forall b, ~ In (VString n) (bucketNames b meta).
Proof.
  pose proof (getCategory_cases meta n) as C.
  destruct (getCategory meta n) as [[item c]|].
  - split; [discriminate|]. intros H. destruct C as (b & _ & Hb & _).
    destruct (H b Hb).
  - split; [intros _; exact C | reflexivity].
Qed.

(** X7. When the lookup finds a category, the name is in the bucket of that
    category and in no bucket of a category earlier in the canonical order;
    the item is the name, or, for watch and listen, an entry of the model
    whose handler is the name. *)
Theorem getCategory_first_match (meta : DocumentMeta) (n : string) (item : Item)
    (c : string) :
  getCategory meta n = Some (item, c) ->
  exists b, c = categoryOf b
            /\ In (VString n) (bucketNames b meta)
            /\ (forall b', categoryRank (categoryOf b') < categoryRank c ->
                           ~ In (VString n) (bucketNames b' meta))
            /\ match item with
               | ItemName x => x = n /\ b <> Watched /\ b <> Listeners
               | ItemWatched w => b = Watched /\ In w (watched meta) /\ handler w = VString n
               | ItemListener l =>
                   b = Listeners /\ In l (listeners meta) /\ l_handler l = VString n
               end.
Proof.
  intros H. pose proof (getCategory_cases meta n) as C. rewrite H in C. exact C.
Qed.

Lemma getCategory_first_match_witness :
  exists b, "lifecycle" = categoryOf b
            /\ In (VString "componentDidLoad") (bucketNames b counterMeta).
Proof.
  destruct (getCategory_first_match counterMeta "componentDidLoad"
              (ItemName "componentDidLoad") "lifecycle") as (b & Hc & Hb & _);
    [vm_compute; reflexivity|].
  exists b. split; assumption.
Defined.

Lemma placement_of_name (sf : SourceFile) (meta : DocumentMeta) (b : Bucket) (v : Value) :
  gatherDocumentMeta sf = Ok meta ->
  In v (bucketNames b meta) <->
  exists m, In m (componentMembers sf) /\ placedIn b m = true /\ toName m = v.
Proof.
  intros H. rewrite (gatherDocumentMeta_buckets sf meta H), in_map_iff. split.
  - intros (m & E & I). apply filter_In in I as [I P]. eauto.
  - intros (m & I & P & E). exists m. split; [exact E | apply filter_In; auto].
Qed.

(** X8. When the members of the component classes have pairwise distinct names
    and each carries at most one role annotation, the category lookup on the
    model gives, for the name of a member, the category of the bucket the
    member is placed in. *)
Theorem getCategory_of_member (sf : SourceFile) (meta : DocumentMeta) (m : Node)
    (n : string) (b : Bucket) :
  gatherDocumentMeta sf = Ok meta ->
  List.NoDup (map toName (componentMembers sf)) ->
  (forall x, In x (componentMembers sf) -> (List.length (rolesOf x) <= 1)%nat) ->
  In m (componentMembers sf) -> toName m = VString n -> placedIn b m = true ->
  exists item, getCategory meta n = Some (item, categoryOf b).
Proof.
  intros H Hnd Hr Hm Hn Hp.
  pose proof (getCategory_cases meta n) as C.
  destruct (getCategory meta n) as [[item c]|].
  - destruct C as (b0 & -> & Hb0 & _). exists item.
    apply (placement_of_name sf meta b0 _ H) in Hb0 as (m0 & I0 & P0 & E0).
    assert (m0 = m) as -> by (apply (NoDup_map_In_inj toName _ _ _ Hnd I0 Hm); congruence).
    rewrite (placedIn_unique m b0 b (Hr m Hm) P0 Hp). reflexivity.
  - exfalso. apply (C b). apply (placement_of_name sf meta b _ H). eauto.
Qed.

Lemma getCategory_of_member_witness :
  exists item, getCategory counterMeta "label" = Some (item, categoryOf Props).
Proof.
  apply (getCategory_of_member counterFile counterMeta
           (field (Some [decorator "Prop" []]) "label") "label" Props).
  - vm_compute. reflexivity.
  - vm_compute. repeat constructor; simpl; intuition discriminate.
  - intros x Hx. vm_compute in Hx.
    repeat (destruct Hx as [<-|Hx]; [vm_compute; lia|]). destruct Hx.
  - right. left. reflexivity.
  - reflexivity.
  - reflexivity.
Defined.

(** X9. For every name the category lookup finds in a model extraction
    returned, the sort key is one of the fourteen prefixes a, b, c, f, g, h,
    ia .. ie, j, k, l, a hyphen and the name: the categories of connect and
    context props never occur, and a lifecycle key always carries the letter
    of its phase. *)
Theorem sort_key_of_found_name (sf : SourceFile) (meta : DocumentMeta) (n : string)
    (item : Item) (c : string) :
  gatherDocumentMeta sf = Ok meta ->
  getCategory meta n = Some (item, c) ->
  exists p, In p sortPrefixes /\ getSortText c n = p +:+ "-" +:+ n.
Proof.
  intros H G. pose proof (getCategory_cases meta n) as C. rewrite G in C.
  destruct C as (b & -> & Hb & _).
  pose proof (proj1 (placement_of_name sf meta b _ H) Hb) as (m & _ & P & E).
  unfold sortPrefixes.
  destruct b; cbn [placedIn] in P; try discriminate P;
    try (eexists; split; [|reflexivity]; simpl; tauto).
  apply andb_true_iff in P as [_ P]. unfold isLifecycleName in P. rewrite E in P.
  apply includes_In in P. simpl in P.
  repeat destruct P as [[= <-]|P]; try destruct P;
    first [ exists "ia"; split; [simpl; tauto | vm_compute; reflexivity]
          | exists "ib"; split; [simpl; tauto | vm_compute; reflexivity]
          | exists "ic"; split; [simpl; tauto | vm_compute; reflexivity]
          | exists "id"; split; [simpl; tauto | vm_compute; reflexivity]
          | exists "ie"; split; [simpl; tauto | vm_compute; reflexivity] ].
Qed.

Lemma sort_key_of_found_name_witness :
  exists p, In p sortPrefixes
            /\ getSortText "lifecycle" "componentDidLoad" = p +:+ "-" +:+ "componentDidLoad".
Proof.
  apply (sort_key_of_found_name counterFile counterMeta "componentDidLoad"
           (ItemName "componentDidLoad") "lifecycle"); vm_compute; reflexivity.
Defined.

(** ** Detail requests *)

Section MoreDetails.

Context {DefinitionInfo Options : Type}.
Implicit Types h : Host DefinitionInfo Options.

(** X10. A raw detail whose kind is neither property nor method is returned
    as it is, whatever the name, and stored under the name; under a new
    (file, position) pair the cache then holds that entry alone. *)
Theorem detail_of_other_kind h (c : DetailCache) (file : string) (position : Z)
    (n : string) (opts : Options) (sf : SourceFile) (meta : DocumentMeta)
    (raw : CompletionEntryDetails) :
  getSourceFile h file = Some sf ->
  gatherDocumentMeta sf = Ok meta ->
  host_getCompletionEntryDetails h file position n opts = Some raw ->
  String.eqb (d_kind raw) "property" || String.eqb (d_kind raw) "method" = false ->
  sameScope c file position = false ->
  getCompletionEntryDetails h c file position n opts
  = (Ok (Some raw),
     {| cachedCompletionEntryDetailsFileName := Some file;
        cachedCompletionEntryDetailsPosition := Some position;
        cachedCompletionEntryDetailsNames := Some [n];
        cachedCompletionEntryDetails := {[ n := raw ]} |},
     [CallGetSourceFile file; CallGetCompletionEntryDetails file position n]).
Proof.
  intros Hsf Hg Hraw Hk Sc.
  unfold getCompletionEntryDetails, computeDetails, store.
  rewrite Sc, Hsf. cbn [gatherFrom]. rewrite Hg, Hraw, Hk. reflexivity.
Qed.

Lemma request_consistent h (c : DetailCache) (file : string) (position : Z) (n : string)
    (opts : Options) :
  cacheConsistent c ->
  cacheConsistent (snd (fst (getCompletionEntryDetails h c file position n opts))).
Proof.
  intros Hc. unfold getCompletionEntryDetails.
  assert (M : cacheConsistent
                (snd (fst (match computeDetails h c file position n opts with
                           | (Ok (prior, c1), calls1) => (Ok (Some prior), c1, calls1)
                           | (TypeError, calls1) => (TypeError, c, calls1)
                           end)))).
  { destruct (computeDetails h c file position n opts) as [[[p c1]|] cl] eqn:E;
      [|exact Hc]. simpl.
    apply computeDetails_Ok in E as [E _]. apply store_Ok in E as [S1 S2].
    destruct (sameScope c file position) eqn:Sc.
    - destruct S2 as (names & N & N1 & D1).
      apply sameScope_true in S1 as [F1 P1]. unfold cacheConsistent. rewrite F1, P1.
      exists (names ++ [n]). split; [exact N1|]. intros n' Hn'. rewrite D1.
      destruct (String.eqb_spec n n') as [->|Hne]; [rewrite lookup_insert_eq; eauto|].
      rewrite lookup_insert_ne by exact Hne.
      rewrite existsb_app in Hn'. simpl in Hn'. rewrite orb_false_r in Hn'.
      apply orb_true_iff in Hn' as [Hn'|Hn'].
      + apply sameScope_true in Sc as [F0 P0]. unfold cacheConsistent in Hc.
        rewrite F0, P0 in Hc. destruct Hc as (names0 & N0 & Hc).
        rewrite N in N0. injection N0 as <-. apply Hc, Hn'.
      + apply String.eqb_eq in Hn'. congruence.
    - subst c1. unfold cacheConsistent. simpl. exists [n]. split; [reflexivity|].
      intros n' Hn'. simpl in Hn'. rewrite orb_false_r in Hn'.
      apply String.eqb_eq in Hn' as ->. rewrite lookup_singleton_eq. eauto. }
  destruct (sameScope c file position); [|exact M].
  destruct (cachedCompletionEntryDetailsNames c); [|exact Hc].
  destruct (existsb (String.eqb n) l); [exact Hc | exact M].
Qed.

Lemma runDetails_consistent (c : DetailCache) (rs : list (DetailRequest DefinitionInfo Options)) :
  cacheConsistent c -> cacheConsistent (runDetails c rs).
Proof.
  revert c. induction rs as [|r rs IH]; intros c Hc; simpl; [exact Hc|].
  apply IH, request_consistent, Hc.
Qed.

(** X11. On a cache reached from the initial one by any run of requests,
    every name the cache lists has a stored detail: a request never returns
    [undefined], and it raises only after calling the wrapped service, never
    while reading the cache. *)
Theorem reached_cache_answers (rs : list (DetailRequest DefinitionInfo Options)) h
    (file : string) (position : Z) (n : string) (opts : Options) :
  cacheConsistent (runDetails initialCache rs)
  /\ fst (fst (getCompletionEntryDetails h (runDetails initialCache rs) file position n opts))
     <> Ok None
  /\ (fst (fst (getCompletionEntryDetails h (runDetails initialCache rs) file position n opts))
      = TypeError ->
      snd (getCompletionEntryDetails h (runDetails initialCache rs) file position n opts)
      <> []).
Proof.
  assert (Hc : cacheConsistent (runDetails initialCache rs))
    by (apply runDetails_consistent; exact I).
  split; [exact Hc|].
  generalize dependent (runDetails initialCache rs). intros c Hc.
  unfold getCompletionEntryDetails.
  assert (M : forall r, r = (match computeDetails h c file position n opts with
                             | (Ok (prior, c1), calls1) => (Ok (Some prior), c1, calls1)
                             | (TypeError, calls1) => (TypeError, c, calls1)
                             end) ->
                        fst (fst r) <> Ok None /\ (fst (fst r) = TypeError -> snd r <> [])).
  { intros r ->. destruct (computeDetails_calls h c file position n opts) as [rest R].
    destruct (computeDetails h c file position n opts) as [[[p c1]|] cl]; simpl in *.
    - split; [discriminate | discriminate].
    - split; [discriminate | intros _; rewrite R; discriminate]. }
  destruct (sameScope c file position) eqn:Sc; [|apply (M _ eq_refl)].
  apply sameScope_true in Sc as [F0 P0]. unfold cacheConsistent in Hc.
  rewrite F0, P0 in Hc. destruct Hc as (names & -> & Hc).
  destruct (existsb (String.eqb n) names) eqn:Ex; [|apply (M _ eq_refl)].
  destruct (Hc n Ex) as [v ->]. simpl. split; discriminate.
Qed.

End MoreDetails.

(** X12. For a name found in a category other than watch and listen, the
    decorated detail keeps the name and the kind of the raw one and, of its
    display parts, replaces the second by the category as a text part; the
    documentation is kept, but for lifecycle, where one markdown part is
    appended. *)
Theorem detail_of_plain_category (meta : DocumentMeta) (n : string)
    (prior d : CompletionEntryDetails) (item : Item) (c : string)
    (p0 p1 : SymbolDisplayPart) (rest : list SymbolDisplayPart) :
  addStencilDisplayParts meta n prior = Ok d ->
  getCategory meta n = Some (item, c) ->
  c <> "watch" -> c <> "listen" ->
  displayParts prior = p0 :: p1 :: rest ->
  displayParts d = p0 :: part "text" c :: rest
  /\ d_name d = d_name prior /\ d_kind d = d_kind prior
  /\ (c <> "lifecycle" -> documentation d = documentation prior)
  /\ (c = "lifecycle" ->
      exists doc, documentation prior = Some doc
                  /\ documentation d
                     = Some (doc ++ [part "markdown"
                                       (nl +:+ nl +:+ "**Component Lifecycle Method**"
                                        +:+ toString (ComponentLifecycleDocs n))])).
Proof.
  intros H G Hw Hl Hd. unfold addStencilDisplayParts in H. rewrite G in H.
  destruct (String.eqb_spec c "watch") as [|_]; [contradiction|].
  destruct (String.eqb_spec c "listen") as [|_]; [contradiction|].
  destruct (String.eqb_spec c "lifecycle") as [->|Hlc].
  - destruct (documentation prior) as [doc|] eqn:D; [|discriminate H].
    cbn [mbind result_bind] in H. injection H as <-. simpl. rewrite Hd.
    repeat split; try reflexivity; [congruence|]. intros _. eauto.
  - cbn [mbind result_bind] in H. injection H as <-. simpl. rewrite Hd.
    repeat split; try reflexivity. intros E. contradiction.
Qed.

Lemma detail_of_plain_category_witness :
  displayParts countDetail
  = part "punctuation" "(" :: part "text" "state"
    :: [part "punctuation" ")"; part "space" " "; part "className" "Counter";
        part "punctuation" "."; part "propertyName" "count"].
Proof.
  apply (detail_of_plain_category counterMeta "count" (rawDetail "property" "count")
           countDetail (ItemName "count") "state"
           (part "punctuation" "(") (part "text" "property")
           [part "punctuation" ")"; part "space" " "; part "className" "Counter";
            part "punctuation" "."; part "propertyName" "count"]);
    first [ discriminate | vm_compute; reflexivity ].
Defined.

Lemma detail_of_other_kind_witness :
  getCompletionEntryDetails
    (serviceOver counterFile None None (fun name => Some (rawDetail "keyword" name)))
    initialCache "counter.tsx" 120 "typeof" tt
  = (Ok (Some (rawDetail "keyword" "typeof")),
     {| cachedCompletionEntryDetailsFileName := Some "counter.tsx";
        cachedCompletionEntryDetailsPosition := Some 120;
        cachedCompletionEntryDetailsNames := Some ["typeof"];
        cachedCompletionEntryDetails := {[ "typeof" := rawDetail "keyword" "typeof" ]} |},
     [CallGetSourceFile "counter.tsx";
      CallGetCompletionEntryDetails "counter.tsx" 120 "typeof"]).
Proof.
  apply (detail_of_other_kind _ initialCache "counter.tsx" 120 "typeof" tt
           counterFile counterMeta); vm_compute; reflexivity.
Defined.

(** ** findRenameLocations *)






Section MoreRename.

Context {DefinitionInfo Options : Type}.
Implicit Types h : Host DefinitionInfo Options.

Lemma findRenameLocations_unfold h
    (rename : string -> Z -> bool -> bool -> option (list RenameLocation))
    (file : string) (position : Z) (fs fc : bool) (sf : SourceFile)
    (meta : DocumentMeta) (node : Node) :
  getSourceFile h file = Some sf ->
  gatherDocumentMeta sf = Ok meta ->
  getNode h file position = Some node ->
  findRenameLocations h rename file position fs fc =
  if renameWatched meta node then
    match nameAt node with
    | Some t =>
        match find (fun w => Value_eqb (prop w) (VString t)) (watched meta) with
        | Some watcher =>
            match handler watcher with
            | VString handlerName =>
                match String.index 0 t handlerName with
                | Some j =>
                    match rename file position true fc with
                    | Some locations =>
                        Ok (Some (locations ++
                                  [handlerLocation file
                                     (stringIndexOf (getText sf) handlerName + Z.of_nat j) t]))
                    | None => TypeError
                    end
                | None => Ok (rename file position true fc)
                end
            | _ => TypeError
            end
        | None => TypeError
        end
    | None => TypeError
    end
  else Ok (rename file position fs fc).
Proof.
  intros Hsf Hg Hn. unfold findRenameLocations, renameWatched.
  rewrite Hsf. cbn [gatherFrom]. rewrite Hg. cbn [mbind result_bind].
  rewrite Hn. cbn [mbind result_bind].
  destruct (nameAt node) as [t|] eqn:Ht.
  - rewrite (nameAt_text _ _ Ht). cbn [truthy].
    destruct (negb (String.eqb t "") && existsb _ (watched meta)); [|reflexivity].
    destruct (find _ (watched meta)) as [w|]; [|reflexivity].
    destruct (handler w) as [| | |hn]; try reflexivity.
    destruct (String.index 0 t hn) as [j|] eqn:I.
    + destruct (stringIndexOf_Some _ _ _ I) as [E G]. rewrite G, E.
      destruct (rename file position true fc); reflexivity.
    + rewrite (stringIndexOf_None _ _ I). change (-1 >? -1) with false. reflexivity.
  - assert (E : match node with
                | Identifier t => VString t
                | PropertyDeclaration _ (Identifier t) _ => VString t
                | _ => VUndefined
                end = VUndefined).
    { destruct node as [| | | | | |d n r| |]; try discriminate Ht; try reflexivity.
      destruct n; try discriminate Ht; reflexivity. }
    rewrite E. reflexivity.
Qed.

(** X13. A rename on a name that is not the property observed by a watched
    entry (or on no name) returns what the wrapped service gives for the
    flags of the caller. On a watched name the wrapped service is asked to
    search strings whatever the caller said, and when the name does not occur
    in the name of the handler nothing is added to its answer. *)
Theorem rename_passes_through h
    (rename : string -> Z -> bool -> bool -> option (list RenameLocation))
    (file : string) (position : Z) (fs fc : bool) (sf : SourceFile)
    (meta : DocumentMeta) (node : Node) :
  getSourceFile h file = Some sf ->
  gatherDocumentMeta sf = Ok meta ->
  getNode h file position = Some node ->
  (renameWatched meta node = false ->
   findRenameLocations h rename file position fs fc = Ok (rename file position fs fc))
  /\ (forall t watcher handlerName,
        renameWatched meta node = true ->
        nameAt node = Some t ->
        find (fun w => Value_eqb (prop w) (VString t)) (watched meta) = Some watcher ->
        handler watcher = VString handlerName ->
        String.index 0 t handlerName = None ->
        findRenameLocations h rename file position fs fc
        = Ok (rename file position true fc)).
Proof.
  intros Hsf Hg Hn.
  rewrite (findRenameLocations_unfold h rename file position fs fc sf meta node Hsf Hg Hn).
  split.
  - intros ->. reflexivity.
  - intros t w hn -> -> -> -> ->. reflexivity.
Qed.


End MoreRename.

Lemma rename_passes_through_witness :
  findRenameLocations watchedService renameOfValue "field.tsx" 35 false false
  = Ok (renameOfValue "field.tsx" 35 true false).
Proof.
  refine (proj2 (rename_passes_through watchedService renameOfValue "field.tsx" 35
                   false false watchedFile watchedMeta (Identifier "value") _ _ _)
            "value" {| prop := VString "value"; handler := VString "onChange" |}
            "onChange" _ _ _ _ _);
    vm_compute; reflexivity.
Defined.


(** ** getQuickInfoAtPosition *)

Lemma quickInfo_hit (spanAt : string -> Z -> option (Z * Z))
    (quickInfo : string -> Z -> option QuickInfo)
    (cache : gmap string (option QuickInfo)) (file : string) (position a b : Z)
    (v : option QuickInfo) :
  spanAt file position = Some (a, b) ->
  cache !! cacheId file a b = Some v ->
  getQuickInfoAtPosition spanAt quickInfo cache file position = (Ok v, cache, false).
Proof. unfold getQuickInfoAtPosition. intros -> ->. reflexivity. Qed.

Lemma quickInfo_stores (spanAt : string -> Z -> option (Z * Z))
    (quickInfo : string -> Z -> option QuickInfo)
    (cache cache1 : gmap string (option QuickInfo)) (file : string) (position a b : Z)
    (v : option QuickInfo) (called : bool) :
  spanAt file position = Some (a, b) ->
  getQuickInfoAtPosition spanAt quickInfo cache file position = (Ok v, cache1, called) ->
  cache1 !! cacheId file a b = Some v.
Proof.
  unfold getQuickInfoAtPosition. intros ->.
  destruct (cache !! cacheId file a b) as [stored|] eqn:L.
  - intros [= <- <- _]. exact L.
  - destruct (addMethodDocumentation (quickInfo file position)) as [prior|];
      [|discriminate]. intros [= <- <- _]. apply lookup_insert_eq.
Qed.

Lemma quickInfo_keeps (spanAt : string -> Z -> option (Z * Z))
    (quickInfo : string -> Z -> option QuickInfo)
    (cache : gmap string (option QuickInfo)) (file : string) (position : Z)
    (k : string) (v : option QuickInfo) :
  cache !! k = Some v ->
  snd (fst (getQuickInfoAtPosition spanAt quickInfo cache file position)) !! k = Some v.
Proof.
  intros Hk. unfold getQuickInfoAtPosition.
  destruct (spanAt file position) as [[a b]|]; [|exact Hk].
  destruct (cache !! cacheId file a b) as [stored|] eqn:L; [exact Hk|].
  destruct (addMethodDocumentation (quickInfo file position)) as [prior|]; [|exact Hk].
  simpl. rewrite lookup_insert_ne; [exact Hk|]. intros E. rewrite E, Hk in L. discriminate L.
Qed.

Lemma runQuickInfo_keeps (cache : gmap string (option QuickInfo))
    (rs : list QuickInfoRequest) (k : string) (v : option QuickInfo) :
  cache !! k = Some v -> runQuickInfo cache rs !! k = Some v.
Proof.
  revert cache. induction rs as [|r rs IH]; intros cache Hk; simpl; [exact Hk|].
  apply IH, quickInfo_keeps, Hk.
Qed.

(** X15. The quick-info cache never loses or replaces an entry: once a
    request is answered for a node, every later request on the same file whose
    node has the same span is answered with the same value from the cache,
    without calling the wrapped service, whatever requests came between and
    whatever the position and the service then are. *)
Theorem quickInfo_cached_for_good (spanAt : string -> Z -> option (Z * Z))
    (quickInfo : string -> Z -> option QuickInfo)
    (cache cache1 : gmap string (option QuickInfo)) (file : string) (position a b : Z)
    (v : option QuickInfo) (called : bool) :
  spanAt file position = Some (a, b) ->
  getQuickInfoAtPosition spanAt quickInfo cache file position = (Ok v, cache1, called) ->
  forall (rs : list QuickInfoRequest) spanAt' quickInfo' position',
    spanAt' file position' = Some (a, b) ->
    getQuickInfoAtPosition spanAt' quickInfo' (runQuickInfo cache1 rs) file position'
    = (Ok v, runQuickInfo cache1 rs, false).
Proof.
  intros Hs H rs spanAt' quickInfo' position' Hs'.
  apply (quickInfo_hit _ _ _ _ _ a b _ Hs').
  apply runQuickInfo_keeps.
  apply (quickInfo_stores _ _ _ _ _ _ _ _ _ _ Hs H).
Qed.

Lemma substring_append_middle (a p b : string) :
  String.substring (String.length a) (String.length p) (a +:+ p +:+ b) = p.
Proof.
  induction a as [|c a IH]; simpl; [|exact IH].
  induction p as [|c p IHp]; simpl.
  - destruct b; reflexivity.
  - f_equal. exact IHp.
Qed.

Lemma mentions_own_marker (a marker b : string) :
  marker <> "" -> (stringIndexOf (a +:+ marker +:+ b) marker >? -1) = true.
Proof.
  intros Hm. unfold stringIndexOf.
  destruct (String.index 0 marker (a +:+ marker +:+ b)) as [i|] eqn:I.
  - apply Z.gtb_lt. lia.
  - exfalso.
    apply (String.index_correct3 0 (String.length a) _ _ I Hm (Nat.le_0_l _)).
    apply substring_append_middle.
Qed.

Lemma someMentions_app (marker : string) (docs rest : list SymbolDisplayPart) :
  someMentions marker docs = Ok false ->
  someMentions marker (docs ++ rest) = someMentions marker rest.
Proof.
  induction docs as [|x docs IH]; simpl; intros H; [reflexivity|].
  destruct (text x) as [| | |t]; try discriminate H.
  destruct (stringIndexOf t marker >? -1); [discriminate H | apply IH, H].
Qed.

Lemma pushDocumentation_again (marker : string) (docs docs' : Value) (q q' : QuickInfo) :
  marker <> "" ->
  pushDocumentation marker docs q = Ok q' ->
  pushDocumentation marker docs' q' = Ok q'
  /\ q_kind q' = q_kind q /\ q_displayParts q' = q_displayParts q.
Proof.
  intros Hm. unfold pushDocumentation.
  destruct (q_documentation q) as [documentation|] eqn:D; [|discriminate].
  destruct (someMentions marker documentation) as [[|]|] eqn:S; try discriminate.
  - intros [= <-]. rewrite D, S. auto.
  - intros [= <-]. simpl. rewrite (someMentions_app _ _ _ S). simpl.
    change (nl +:+ nl +:+ marker +:+ toString docs)
      with ((nl +:+ nl) +:+ marker +:+ toString docs).
    rewrite (mentions_own_marker (nl +:+ nl) marker (toString docs) Hm). auto.
Qed.

(** X16. Adding the method documentation is idempotent: applied to its own
    result it changes nothing, so the text of a lifecycle or builtin method is
    in the documentation once. *)
Theorem addMethodDocumentation_idempotent (prior prior' : option QuickInfo) :
  addMethodDocumentation prior = Ok prior' ->
  addMethodDocumentation prior' = Ok prior'.
Proof.
  unfold addMethodDocumentation. destruct prior as [q|]; [|intros [= <-]; reflexivity].
  destruct (String.eqb (q_kind q) "method") eqn:K;
    [|intros [= <-]; rewrite K; reflexivity].
  destruct (find _ (q_displayParts q)) as [name|] eqn:F; [|discriminate].
  destruct (includes (map VString ComponentLifecycleMethods) (text name)) eqn:L.
  - destruct (pushDocumentation _ _ q) as [q'|] eqn:P; [|discriminate].
    cbn [mbind result_bind]. intros [= <-].
    apply (pushDocumentation_again _ _
             (ComponentLifecycleDocs (toString (text name)))) in P as (P & Ek & Ed);
      [|discriminate].
    rewrite Ek, K, Ed, F, L, P. reflexivity.
  - destruct (includes (map VString ComponentBuiltinMethods) (text name)) eqn:B.
    + destruct (pushDocumentation _ _ q) as [q'|] eqn:P; [|discriminate].
      cbn [mbind result_bind]. intros [= <-].
      apply (pushDocumentation_again _ _
               (ComponentBuiltinMethodDocs (toString (text name)))) in P as (P & Ek & Ed);
        [|discriminate].
      rewrite Ek, K, Ed, F, L, B, P. reflexivity.
    + intros [= <-]. rewrite K, F, L, B. reflexivity.
Qed.

(** X17. A quick info that is absent, or of a kind other than method, is
    returned as it is and stored; one of kind method whose display parts hold
    no method name makes the request raise, with the wrapped service called
    and nothing stored. *)
Theorem quickInfo_edges (spanAt : string -> Z -> option (Z * Z))
    (quickInfo : string -> Z -> option QuickInfo)
    (cache : gmap string (option QuickInfo)) (file : string) (position a b : Z) :
  spanAt file position = Some (a, b) ->
  cache !! cacheId file a b = None ->
  (quickInfo file position = None ->
   getQuickInfoAtPosition spanAt quickInfo cache file position
   = (Ok None, <[cacheId file a b := None]> cache, true))
  /\ (forall q, quickInfo file position = Some q ->
                String.eqb (q_kind q) "method" = false ->
                getQuickInfoAtPosition spanAt quickInfo cache file position
                = (Ok (Some q), <[cacheId file a b := Some q]> cache, true))
  /\ (forall q, quickInfo file position = Some q ->
                String.eqb (q_kind q) "method" = true ->
                find (fun x => String.eqb (kind x) "methodName") (q_displayParts q) = None ->
                getQuickInfoAtPosition spanAt quickInfo cache file position
                = (TypeError, cache, true)).
Proof.
  intros Hs Hc. unfold getQuickInfoAtPosition, addMethodDocumentation. rewrite Hs, Hc.
  split; [|split].
  - intros ->. reflexivity.
  - intros q -> ->. reflexivity.
  - intros q -> -> ->. reflexivity.
Qed.

Lemma quickInfo_cached_for_good_witness :
  fst (getQuickInfoAtPosition (fun _ _ => Some (100, 116)) (fun _ _ => None)
         (runQuickInfo (<[cacheId "counter.tsx" 100 116 := Some didLoadInfo]> ∅)
            [{| qr_spanAt := fun _ _ => Some (40, 45); qr_quickInfo := fun _ _ => None;
                qr_fileName := "counter.tsx"; qr_position := 42 |}])
         "counter.tsx" 110)
  = (Ok (Some didLoadInfo),
     runQuickInfo (<[cacheId "counter.tsx" 100 116 := Some didLoadInfo]> ∅)
       [{| qr_spanAt := fun _ _ => Some (40, 45); qr_quickInfo := fun _ _ => None;
           qr_fileName := "counter.tsx"; qr_position := 42 |}]).
Proof.
  rewrite (quickInfo_cached_for_good (fun _ _ => Some (100, 116))
             (fun _ _ => Some (methodInfo "componentDidLoad" [])) ∅
             (<[cacheId "counter.tsx" 100 116 := Some didLoadInfo]> ∅)
             "counter.tsx" 105 100 116 (Some didLoadInfo) true);
    [reflexivity | reflexivity | vm_compute; reflexivity | reflexivity].
Defined.

Lemma addMethodDocumentation_idempotent_witness :
  addMethodDocumentation (Some didLoadInfo) = Ok (Some didLoadInfo).
Proof.
  apply (addMethodDocumentation_idempotent (Some (methodInfo "componentDidLoad" []))).
  vm_compute. reflexivity.
Defined.

Lemma quickInfo_edges_witness :
  getQuickInfoAtPosition (fun _ _ => Some (40, 45))
    (fun _ _ => Some {| q_kind := "property"; q_displayParts := [];
                        q_documentation := None |})
    ∅ "counter.tsx" 42
  = (Ok (Some {| q_kind := "property"; q_displayParts := []; q_documentation := None |}),
     <[cacheId "counter.tsx" 40 45 :=
         Some {| q_kind := "property"; q_displayParts := []; q_documentation := None |}]> ∅,
     true).
Proof.
  assert (E : (∅ : gmap string (option QuickInfo)) !! cacheId "counter.tsx" 40 45 = None)
    by (vm_compute; reflexivity).
  apply (proj1 (proj2 (quickInfo_edges (fun _ _ => Some (40, 45)) _ ∅ "counter.tsx" 42
                         40 45 eq_refl E)));
    reflexivity.
Defined.

(** ** The entries of member completion *)

Lemma found_category_truthy (meta : DocumentMeta) (n : string) (item : Item) (c : string) :
  getCategory meta n = Some (item, c) -> truthy (VString c) = true.
Proof.
  intros H. pose proof (getCategory_cases meta n) as C. rewrite H in C.
  destruct C as (b & -> & _). destruct b; reflexivity.
Qed.

Lemma memberEntries_as_map (meta : DocumentMeta) (entries : list CompletionEntry) :
  memberEntries meta entries
  = map (fun entry =>
           match getCategory meta (e_name entry) with
           | Some (_, c) => set_sortText (getSortText c (e_name entry)) entry
           | None => entry
           end)
        (List.filter (fun entry => negb (isBuiltinMethodEntry entry)) entries).
Proof.
  unfold memberEntries.
  assert (F : forall l : list CompletionEntry,
             List.filter
               (fun entry =>
                  if String.eqb (e_kind entry) "method"
                  then negb (includes (map VString ComponentBuiltinMethods)
                               (VString (e_name entry)))
                  else true) l
             = List.filter (fun entry => negb (isBuiltinMethodEntry entry)) l).
  { intros l. apply filter_ext. intros e. unfold isBuiltinMethodEntry.
    destruct (String.eqb (e_kind e) "method"); reflexivity. }
  rewrite F. apply map_ext. intros e.
  destruct (getCategory meta (e_name e)) as [[item c]|] eqn:G; [|reflexivity].
  rewrite (found_category_truthy _ _ _ _ G). reflexivity.
Qed.

(** X18. Member completion drops exactly the entries of kind method named
    [render] or [hostData]: the result holds none, and the names and kinds of
    its entries are those of the other entries, in their order (a property
    named like a builtin is kept). *)
Theorem memberEntries_drop_builtin_methods (meta : DocumentMeta)
    (entries : list CompletionEntry) :
  (forall e, In e (memberEntries meta entries) -> isBuiltinMethodEntry e = false)
  /\ map (fun e => (e_name e, e_kind e, insertText e, hasAction e)) (memberEntries meta entries)
     = map (fun e => (e_name e, e_kind e, insertText e, hasAction e))
         (List.filter (fun e => negb (isBuiltinMethodEntry e)) entries).
Proof.
  rewrite memberEntries_as_map. split.
  - intros e He. apply in_map_iff in He as (e0 & <- & H0).
    apply filter_In in H0 as [_ H0]. apply negb_true_iff in H0.
    destruct (getCategory meta (e_name e0)) as [[item c]|]; exact H0.
  - rewrite map_map. apply map_ext. intros e.
    destruct (getCategory meta (e_name e)) as [[item c]|]; reflexivity.
Qed.

Lemma memberEntries_sortText (meta : DocumentMeta) (entries : list CompletionEntry)
    (e : CompletionEntry) (item : Item) (c : string) :
  In e (memberEntries meta entries) ->
  getCategory meta (e_name e) = Some (item, c) ->
  sortText e = getSortText c (e_name e).
Proof.
  rewrite memberEntries_as_map. intros He G.
  apply in_map_iff in He as (e0 & <- & _).
  destruct (getCategory meta (e_name e0)) as [[item0 c0]|] eqn:G0; simpl in *.
  - rewrite G0 in G. injection G as _ <-. reflexivity.
  - rewrite G0 in G. discriminate G.
Qed.

(** X19. After member completion, two entries whose names the model holds are
    ordered by their sort texts as their categories are in the canonical
    order, and, within one category other than lifecycle, as their names
    are. *)
Theorem memberEntries_sorted_by_category (meta : DocumentMeta)
    (entries : list CompletionEntry) (e1 e2 : CompletionEntry) (i1 i2 : Item)
    (c1 c2 : string) :
  In e1 (memberEntries meta entries) -> In e2 (memberEntries meta entries) ->
  getCategory meta (e_name e1) = Some (i1, c1) ->
  getCategory meta (e_name e2) = Some (i2, c2) ->
  (categoryRank c1 < categoryRank c2 ->
   String.compare (sortText e1) (sortText e2) = Lt)
  /\ (c1 = c2 -> c1 <> "lifecycle" ->
      String.compare (sortText e1) (sortText e2) = String.compare (e_name e1) (e_name e2)).
Proof.
  intros H1 H2 G1 G2.
  rewrite (memberEntries_sortText _ _ _ _ _ H1 G1), (memberEntries_sortText _ _ _ _ _ H2 G2).
  split.
  - apply getSortText_by_category.
  - intros <- Hl. apply getSortText_by_name, Hl.
Qed.

Lemma memberEntries_sorted_by_category_witness :
  exists e1 e2,
    In e1 (memberEntries counterMeta thisEntries)
    /\ In e2 (memberEntries counterMeta thisEntries)
    /\ e_name e1 = "count" /\ e_name e2 = "label"
    /\ String.compare (sortText e1) (sortText e2) = Lt.
Proof.
  exists {| e_name := "count"; e_kind := "property"; sortText := "c-count";
            insertText := VUndefined; hasAction := false |},
         {| e_name := "label"; e_kind := "property"; sortText := "f-label";
            insertText := VUndefined; hasAction := false |}.
  assert (I1 : In {| e_name := "count"; e_kind := "property"; sortText := "c-count";
                     insertText := VUndefined; hasAction := false |}
                  (memberEntries counterMeta thisEntries))
    by (vm_compute; tauto).
  assert (I2 : In {| e_name := "label"; e_kind := "property"; sortText := "f-label";
                     insertText := VUndefined; hasAction := false |}
                  (memberEntries counterMeta thisEntries))
    by (vm_compute; tauto).
  split; [exact I1|]. split; [exact I2|]. split; [reflexivity|]. split; [reflexivity|].
  apply (proj1 (memberEntries_sorted_by_category counterMeta thisEntries _ _
                  (ItemName "count") (ItemName "label") "state" "prop" I1 I2
                  ltac:(vm_compute; reflexivity) ltac:(vm_compute; reflexivity))).
  vm_compute. reflexivity.
Defined.

(** ** The type predicates *)

Lemma land_lor_nonzero (f a b : Z) :
  negb (Z.land f (Z.lor a b) =? 0) = negb (Z.land f a =? 0) || negb (Z.land f b =? 0).
Proof.
  rewrite Z.land_lor_distr_r.
  destruct (Z.eqb_spec (Z.land f a) 0) as [Ea|Ea], (Z.eqb_spec (Z.land f b) 0) as [Eb|Eb];
    simpl.
  - rewrite Ea, Eb. reflexivity.
  - destruct (Z.eqb_spec (Z.lor (Z.land f a) (Z.land f b)) 0) as [E|E]; [|reflexivity].
    apply Z.lor_eq_0_iff in E. tauto.
  - destruct (Z.eqb_spec (Z.lor (Z.land f a) (Z.land f b)) 0) as [E|E]; [|reflexivity].
    apply Z.lor_eq_0_iff in E. tauto.
  - destruct (Z.eqb_spec (Z.lor (Z.land f a) (Z.land f b)) 0) as [E|E]; [|reflexivity].
    apply Z.lor_eq_0_iff in E. tauto.
Qed.

(** X20. Each type predicate answers [false] for an absent type, and for a
    present one answers [true] exactly when the flags of the type share a bit
    with one of the flags the predicate names: Boolean or BooleanLike for
    [isBoolean], Number, NumberLike or NumberLiteral for [isNumber], String,
    StringLike or StringLiteral for [isString]. *)
Theorem type_predicates_any_flag (A B C : Z) (t : tsType) :
  isBoolean A B None = false /\ isNumber A B C None = false /\ isString A B C None = false
  /\ isBoolean A B (Some t)
     = negb (Z.land (TypeUtil.flags t) A =? 0) || negb (Z.land (TypeUtil.flags t) B =? 0)
  /\ isNumber A B C (Some t)
     = negb (Z.land (TypeUtil.flags t) A =? 0) || negb (Z.land (TypeUtil.flags t) B =? 0)
       || negb (Z.land (TypeUtil.flags t) C =? 0)
  /\ isString A B C (Some t)
     = negb (Z.land (TypeUtil.flags t) A =? 0) || negb (Z.land (TypeUtil.flags t) B =? 0)
       || negb (Z.land (TypeUtil.flags t) C =? 0).
Proof.
  repeat split; unfold isBoolean, isNumber, isString; rewrite !land_lor_nonzero;
    try reflexivity.
  destruct (negb (Z.land (TypeUtil.flags t) A =? 0)),
           (negb (Z.land (TypeUtil.flags t) B =? 0)); reflexivity.
Qed.

(** ** The options of the Prop decorator *)

Lemma PropOptionsExpansion_outside (name : string) :
  ~ In name ["attr"; "context"; "connect"; "mutable"; "reflectToAttr"] ->
  PropOptionsExpansion name = VUndefined.
Proof.
  intros H. unfold PropOptionsExpansion.
  repeat match goal with
         | |- context [String.eqb name ?k] =>
             destruct (String.eqb_spec name k) as [->|_]; [exfalso; apply H; simpl; tauto|]
         end.
  reflexivity.
Qed.

(** X21. Inside the argument of a [Prop] decorator every entry keeps its
    name, kind and sort text, in the same order, and is marked as having an
    action; its insert text is the name followed by a colon and a space for
    attr, context and connect, with [true] after it for mutable and
    reflectToAttr, and is [undefined] for every other name. *)
Theorem propOptionEntries_expansion (entries : list CompletionEntry) :
  map (fun e => (e_name e, e_kind e, sortText e)) (propOptionEntries entries)
  = map (fun e => (e_name e, e_kind e, sortText e)) entries
  /\ forall e, In e (propOptionEntries entries) ->
       hasAction e = true
       /\ (In (e_name e) ["attr"; "context"; "connect"] ->
           insertText e = VString (e_name e +:+ ": "))
       /\ (In (e_name e) ["mutable"; "reflectToAttr"] ->
           insertText e = VString (e_name e +:+ ": true"))
       /\ (~ In (e_name e) ["attr"; "context"; "connect"; "mutable"; "reflectToAttr"] ->
           insertText e = VUndefined).
Proof.
  unfold propOptionEntries. split.
  - rewrite map_map. reflexivity.
  - intros e He. apply in_map_iff in He as (e0 & <- & _). simpl.
    split; [reflexivity|]. split; [|split].
    + intros [<-|[<-|[<-|[]]]]; reflexivity.
    + intros [<-|[<-|[]]]; reflexivity.
    + intros H. rewrite (PropOptionsExpansion_outside _ H). reflexivity.
Qed.

(** ** findReferences: when it raises *)

Section MoreReferences.

Context {DefinitionInfo Options : Type}.
Implicit Types h : Host DefinitionInfo Options.

(** X22. A find-references request raises when no node is found at the
    position, and, on a watched name that the text holds in quotes, when the
    list of the wrapped service is absent or empty; on a watched name that the
    text does not hold in quotes the list is returned as it is. *)
Theorem findReferences_edges h (file : string) (position : Z) (sf : SourceFile)
    (meta : DocumentMeta) :
  getSourceFile h file = Some sf ->
  gatherDocumentMeta sf = Ok meta ->
  (getNode h file position = None -> findReferences h file position = TypeError)
  /\ (forall node t,
        getNode h file position = Some node -> nameAt node = Some t ->
        existsb (fun w => Value_eqb (prop w) (VString t)) (watched meta) = true ->
        (forall found,
           quotedOffset (getText sf) t = Some found ->
           host_findReferences h file position = None
           \/ host_findReferences h file position = Some [] ->
           findReferences h file position = TypeError)
        /\ (quotedOffset (getText sf) t = None ->
            findReferences h file position = Ok (host_findReferences h file position))).
Proof.
  intros Hsf Hg. split.
  - intros Hn. unfold findReferences. rewrite Hsf. cbn [gatherFrom]. rewrite Hg.
    cbn [mbind result_bind]. rewrite Hn. reflexivity.
  - intros node t Hn Ht Hw.
    rewrite (findReferences_unfold h file position sf meta node t Hsf Hg Hn Ht), Hw.
    split.
    + intros found -> [-> | ->]; reflexivity.
    + intros ->. reflexivity.
Qed.

End MoreReferences.

Lemma findReferences_edges_witness :
  findReferences
    (serviceOver watchedFile (Some (Identifier "value")) (Some []) (fun _ => None))
    "field.tsx" 35
  = TypeError.
Proof.
  refine (proj1 (proj2 (findReferences_edges
                          (serviceOver watchedFile (Some (Identifier "value")) (Some [])
                             (fun _ => None))
                          "field.tsx" 35 watchedFile watchedMeta _ _)
                   (Identifier "value") "value" _ _ _) 80%nat _ _);
    first [ right; reflexivity | vm_compute; reflexivity ].
Defined.
